(** * make_gtfs: the synthesis pipeline of [make_gtfs/main.py]

    A shallow embedding of the functions of [main.py] that turn a ProtoFeed
    (frequencies, service windows, meta data, path geometries and an optional
    stop registry) into the tables of a GTFS feed, followed by the properties
    of the pipeline.

    Conventions of the embedding.
    - pandas DataFrames are lists of records, one record per row, in row
      order; a missing value (NaN) of a column is [None].
    - Python [int] is [Z]; Python [float] is an exact rational [Q]
      (rounding of binary floating point is not modelled).
    - Python exceptions are the [Raise] results of the [Result] monad.
    - shapely, gtfstk and numpy are collaborators outside the repository:
      their operations are the fields of the classes [Geometry] and
      [TimeCodec]; [numpy.interp] on two knots is written out. *)

From Stdlib Require Import QArith Qround Qabs Lqa Ascii String.
From stdpp Require Import gmap strings list fin_maps sorting pretty.

Local Open Scope string_scope.
Local Open Scope list_scope.
Local Open Scope Z_scope.

(** ** Python exceptions as results *)

Inductive PyError : Set :=
  | KeyError | ValueError | IndexError | TypeError | ZeroDivisionError.

Inductive Result (A : Type) : Type :=
  | Ok (a : A)
  | Raise (e : PyError).
Arguments Ok {A} a.
Arguments Raise {A} e.

Global Instance Result_ret : MRet Result := λ A a, Ok a.
Global Instance Result_bind : MBind Result := λ A B f m,
  match m with Ok a => f a | Raise e => Raise e end.
Global Instance Result_fmap : FMap Result := λ A B f m,
  match m with Ok a => Ok (f a) | Raise e => Raise e end.

(** [d[k]] on a dict, [l[i]] on a list, [x.attr] on an optional object. *)
Definition getitem {V} (d : gmap string V) (k : string) : Result V :=
  match d !! k with Some v => Ok v | None => Raise KeyError end.

Definition index {A} (l : list A) (i : nat) : Result A :=
  match l !! i with Some x => Ok x | None => Raise IndexError end.

Definition not_None {A} (o : option A) : Result A :=
  match o with Some x => Ok x | None => Raise TypeError end.

(** The loops of [main.py] that extend [rows] once per iteration: the
    first exception aborts the loop. *)
Fixpoint for_rows {A B} (f : A → Result (list B)) (l : list A)
    : Result (list B) :=
  match l with
  | [] => Ok []
  | x :: l' => new_rows ← f x; rows ← for_rows f l'; Ok (new_rows ++ rows)
  end.

(** The same loop when the body also updates a memo table. *)
Fixpoint for_rows_st {A B S} (f : A → S → Result (S * list B)) (l : list A)
    (st : S) : Result (S * list B) :=
  match l with
  | [] => Ok (st, [])
  | x :: l' =>
      '(st, new_rows) ← f x st;
      '(st, rows) ← for_rows_st f l' st;
      Ok (st, new_rows ++ rows)
  end.

(** ** Python built-ins on strings and numbers *)

(** [sep.join(parts)] *)
Fixpoint join (sep : string) (parts : list string) : string :=
  match parts with
  | [] => ""
  | [p] => p
  | p :: ps => p +:+ sep +:+ join sep ps
  end.

(** [s.split(sep)] for a non-empty [sep]: scan left to right, cut at every
    occurrence of [sep], skip the rest of the occurrence. [cur] is the
    component read so far, [skip] the characters of a matched separator
    still to be passed over. *)
Fixpoint split_go (sep : string) (skip : nat) (cur : string) (s : string)
    : list string :=
  match s with
  | EmptyString => [cur]
  | String c s' =>
      match skip with
      | S k => split_go sep k cur s'
      | O =>
          if String.prefix sep s
          then cur :: split_go sep (String.length sep - 1) "" s'
          else split_go sep 0 (cur +:+ String c "") s'
      end
  end.

Definition split (sep : string) (s : string) : Result (list string) :=
  match sep with
  | EmptyString => Raise ValueError
  | _ => Ok (split_go sep 0 "" s)
  end.

(** [sub in s] *)
Fixpoint contains (sub s : string) : bool :=
  String.prefix sub s
  || match s with
     | EmptyString => false
     | String _ s' => contains sub s'
     end.

(** [str(n)] for an [int]. *)
Definition str (n : Z) : string := pretty n.

(** [int(s)] for a string: canonical decimal literals, with an optional
    minus sign; everything else raises [ValueError]. *)
Definition digit_of (c : Ascii.ascii) : option Z :=
  let n := Z.of_N (N_of_ascii c) in
  if bool_decide (48 ≤ n ≤ 57) then Some (n - 48) else None.

Fixpoint parse_digits (acc : Z) (s : string) : option Z :=
  match s with
  | EmptyString => Some acc
  | String c s' =>
      match digit_of c with
      | Some d => parse_digits (10 * acc + d) s'
      | None => None
      end
  end.

Definition parse_nat (s : string) : option Z :=
  match s with
  | EmptyString => None
  | _ => parse_digits 0 s
  end.

Definition int_of_str (s : string) : Result Z :=
  let r := match s with
           | String c s' =>
               if decide (c = "-"%char) then Z.opp <$> parse_nat s'
               else parse_nat s
           | EmptyString => None
           end in
  match r with Some n => Ok n | None => Raise ValueError end.

(** [int(x)] for a float: truncation towards zero. *)
Definition int_of_float (x : Q) : Z := Z.quot (Qnum x) (Zpos (Qden x)).

(** [x / y] on floats. *)
Definition float_div (x y : Q) : Result Q :=
  if Qeq_bool y 0 then Raise ZeroDivisionError else Ok (x / y)%Q.

(** [x < y] on floats. *)
Definition Qltb (x y : Q) : bool := negb (Qle_bool y x).

(** [range(n)] *)
Definition range (n : Z) : list nat := seq 0 (Z.to_nat n).

(** [Series.unique()]: the distinct values in order of first appearance. *)
Fixpoint unique_go `{EqDecision A} (seen : list A) (l : list A) : list A :=
  match l with
  | [] => []
  | x :: l' =>
      if decide (x ∈ seen) then unique_go seen l'
      else x :: unique_go (x :: seen) l'
  end.
Definition unique `{EqDecision A} (l : list A) : list A := unique_go [] l.

(** [pd.merge(left, right)]: inner join on the shared columns, in the order
    of the left rows; [on l r] tells whether the shared columns agree. *)
Definition merge {A B} (on : A → B → bool) (left : list A) (right : list B)
    : list (A * B) :=
  l ← left; (λ r, (l, r)) <$> filter (λ r, on l r = true) right.

(** A Python [dict] whose iteration order is observed: keys in order of
    first insertion, each with the value inserted last. *)
Fixpoint dict_set {V} (k : string) (v : V) (d : list (string * V))
    : list (string * V) :=
  match d with
  | [] => [(k, v)]
  | (k', v') :: d' =>
      if decide (k = k') then (k, v) :: d' else (k', v') :: dict_set k v d'
  end.
Definition ordered_dict {V} (items : list (string * V)) : list (string * V) :=
  foldl (λ d kv, dict_set kv.1 kv.2 d) [] items.

(** [dict(items)] when only lookups are made: later items win. *)
Definition dict {V} (items : list (string * V)) : gmap string V :=
  foldl (λ d kv, <[kv.1 := kv.2]> d) ∅ items.

(** [Series.fillna(value)] on one cell. *)
Definition fillna {A} (value : option A) (x : option A) : option A :=
  match x with Some a => Some a | None => value end.

(** Modelled from the spec: [constants.SEP] is not part of the sources at
    hand; the spec tags shapes [-0] and [-1] and [build_shapes] writes the
    same separator literally. *)
Definition SEP : string := "-".

(** ** Source tables of a ProtoFeed *)

Definition Point : Type := Q * Q.
Definition LineString : Type := list Point.

(** A row of [frequencies.csv]. *)
Record FrequencyRow := {
  fq_route_short_name : string;
  fq_route_long_name : string;
  fq_route_type : option Z;
  fq_service_window_id : string;
  fq_direction : Z;
  fq_frequency : Z;
  fq_speed : option Q;
  fq_shape_id : string }.

(** The frequencies DataFrame: its rows and whether it has the optional
    column [speed] (without the column, [fq_speed] is not read). *)
Record Frequencies := {
  has_speed : bool;
  fq_rows : list FrequencyRow }.

(** A row of [service_windows.csv]. *)
Record ServiceWindow := {
  sw_service_window_id : string;
  sw_start_time : string;
  sw_end_time : string;
  monday : Z; tuesday : Z; wednesday : Z; thursday : Z;
  friday : Z; saturday : Z; sunday : Z }.

(** A row of [meta.csv]. *)
Record Meta := {
  agency_name : string;
  agency_url : string;
  agency_timezone : string;
  start_date : string;
  end_date : string;
  default_route_speed : option Q }.

(** A LineString feature of [shapes.geojson]. *)
Record Feature := {
  ft_shape_id : string;
  ft_coords : LineString }.

(** A row of [stops.txt]. *)
Record Stop := {
  stop_id : string;
  stop_name : string;
  stop_lon : Q;
  stop_lat : Q }.

(** DataFrames are mutable objects: the frequencies table lives in a store
    and is passed around by reference. *)
Abbreviation loc := nat (only parsing).
Abbreviation Store := (gmap nat Frequencies) (only parsing).

(** The memo table of along-shape distances: shape ID, then stop ID. *)
Abbreviation Cache := (gmap string (gmap string Q)) (only parsing).

Record ProtoFeed := {
  pf_frequencies : option loc;
  pf_meta : option (list Meta);
  pf_service_windows : option (list ServiceWindow);
  pf_shapes : option (list Feature);
  pf_stops : option (list Stop);
  pf_shapes_extra : option (gmap string Z) }.

(** ** Tables of the built feed *)

Record AgencyRow := {
  ag_agency_name : string;
  ag_agency_url : string;
  ag_agency_timezone : string }.

Record CalendarRow := {
  ca_service_id : string;
  ca_weekdays : list Z;
  ca_start_date : string;
  ca_end_date : string }.

Record RouteRow := {
  rt_route_short_name : string;
  rt_route_long_name : string;
  rt_route_type : option Z;
  rt_route_id : string }.

Record ShapeRow := {
  sh_shape_id : string;
  sh_shape_pt_sequence : nat;
  sh_shape_pt_lon : Q;
  sh_shape_pt_lat : Q }.

Record TripRow := {
  tr_route_id : string;
  tr_trip_id : string;
  tr_direction_id : Z;
  tr_shape_id : string;
  tr_service_id : string }.

(** A row of [stop_times.txt]; [T] is [Q] while times are seconds past
    midnight and [string] once they are rendered. *)
Record StopTimeRow (T : Type) := {
  st_trip_id : string;
  st_stop_id : string;
  st_stop_sequence : nat;
  st_arrival_time : T;
  st_departure_time : T;
  st_shape_dist_traveled : Q }.
Arguments Build_StopTimeRow {T}.
Arguments st_trip_id {T}.
Arguments st_stop_id {T}.
Arguments st_stop_sequence {T}.
Arguments st_arrival_time {T}.
Arguments st_departure_time {T}.
Arguments st_shape_dist_traveled {T}.

Record Feed := {
  agency : list AgencyRow;
  calendar : list CalendarRow;
  routes : list RouteRow;
  shapes : list ShapeRow;
  stops : list Stop;
  stop_times : list (StopTimeRow string);
  trips : list TripRow }.

(** ** Collaborators outside the repository *)

(** A stop of a GeoDataFrame of stops: its identifier and its point. *)
Record GeoStop := {
  gs_stop_id : string;
  gs_geometry : Point }.

(** shapely and the geometric helpers of gtfstk. *)
Class Geometry := {
  Polygon : Type;
  (** [linestring.length] *)
  ls_length : LineString → Q;
  (** [linestring.interpolate(x, normalized=True).coords[0]] *)
  interpolate : LineString → Q → Point;
  (** [linestring.buffer(radius, cap_style)] *)
  ls_buffer : LineString → Q → Z → Polygon;
  (** [a.difference(b)] *)
  difference : Polygon → Polygon → Polygon;
  (** [list(shapely.ops.polygonize(p))] *)
  polygonize : Polygon → list Polygon;
  (** [point.intersects(polygon)] *)
  intersects : Point → Polygon → bool;
  (** [gtfstk.get_segment_length(linestring, point)] *)
  get_segment_length : LineString → Point → Q;
  (** [gtfstk.geometrize_shapes(shapes, use_utm)], columns
      [shape_id] and [geometry] *)
  geometrize_shapes : bool → list ShapeRow → list (string * LineString);
  (** [gtfstk.geometrize_stops(stops, use_utm=True)] *)
  geometrize_stops : list Stop → list GeoStop }.

(** [gtfstk.timestr_to_seconds] on well-formed time strings, and its
    inverse ([inverse=True]). *)
Class TimeCodec := {
  timestr_to_seconds : string → Z;
  seconds_to_timestr : Q → string }.

(** The constants of [constants.py] other than [SEP]. *)
Class Constants := {
  BUFFER : Q;
  traffic_by_timezone : gmap string string }.

(** [numpy.interp(x, [d0, d1], [t0, t1])] at one point [x]: clamped outside
    the knots, the right knot's value at the right knot, linear between. *)
Definition np_interp (x d0 d1 t0 t1 : Q) : Q :=
  if Qlt_le_dec d1 x then t1
  else if Qlt_le_dec x d0 then t0
  else if Qle_bool d1 x then t1
  else if Qeq_bool d0 x then t0
  else ((t1 - t0) / (d1 - d0) * (x - d0) + t0)%Q.

(** ** ProtoFeed.__init__ *)

Definition deref (σ : Store) (l : option loc) : Result Frequencies :=
  l ← not_None l; not_None (σ !! l).

Definition fill_route_type (freq : Frequencies) : Frequencies :=
  {| has_speed := has_speed freq;
     fq_rows := (λ r,
       {| fq_route_short_name := fq_route_short_name r;
          fq_route_long_name := fq_route_long_name r;
          fq_route_type := fillna (Some 3) (fq_route_type r);
          fq_service_window_id := fq_service_window_id r;
          fq_direction := fq_direction r;
          fq_frequency := fq_frequency r;
          fq_speed := fq_speed r;
          fq_shape_id := fq_shape_id r |}) <$> fq_rows freq |}.

Definition map_speed (f : option Q → option Q) (r : FrequencyRow)
    : FrequencyRow :=
  {| fq_route_short_name := fq_route_short_name r;
     fq_route_long_name := fq_route_long_name r;
     fq_route_type := fq_route_type r;
     fq_service_window_id := fq_service_window_id r;
     fq_direction := fq_direction r;
     fq_frequency := fq_frequency r;
     fq_speed := f (fq_speed r);
     fq_shape_id := fq_shape_id r |}.

(** [if 'speed' not in cols: freq['speed'] = np.nan] *)
Definition add_speed (freq : Frequencies) : Frequencies :=
  if has_speed freq then freq
  else {| has_speed := true;
          fq_rows := map_speed (λ _, None) <$> fq_rows freq |}.

Definition fill_speed (default : option Q) (freq : Frequencies)
    : Frequencies :=
  {| has_speed := has_speed freq;
     fq_rows := map_speed (fillna default) <$> fq_rows freq |}.

Definition my_agg (group : list FrequencyRow) : Result Z :=
  let dirs := unique (fq_direction <$> group) in
  if bool_decide (1 < length dirs)%nat || bool_decide (2 ∈ dirs)
  then Ok 2
  else index dirs 0.

(** [frequencies.groupby('shape_id')]: one group per shape ID. *)
Definition groupby_shape_id (rows : list FrequencyRow)
    : list (string * list FrequencyRow) :=
  (λ k, (k, filter (λ r, fq_shape_id r = k) rows))
    <$> unique (fq_shape_id <$> rows).

Definition build_shapes_extra (freq : Frequencies) : Result (gmap string Z) :=
  dict <$> mapM (λ '(k, group), d ← my_agg group; Ok (k, d))
                (groupby_shape_id (fq_rows freq)).

(** The constructor works on the object the caller passed: every
    assignment to a column of [freq] is a write to the store at the
    caller's reference. *)
Definition ProtoFeed_init (σ : Store) (frequencies : option loc)
    (meta : option (list Meta))
    (service_windows : option (list ServiceWindow))
    (shapes : option (list Feature)) (stops : option (list Stop))
    : Result (Store * ProtoFeed) :=
  σ ← match frequencies with
      | None => Ok σ
      | Some l =>
          freq ← not_None (σ !! l);
          let σ := <[l := fill_route_type freq]> σ in
          freq ← not_None (σ !! l);
          let σ := <[l := add_speed freq]> σ in
          meta ← not_None meta;
          m ← index meta 0;
          freq ← not_None (σ !! l);
          Ok (<[l := fill_speed (default_route_speed m) freq]> σ)
      end;
  shapes_extra ← match frequencies with
                 | None => Ok None
                 | Some l =>
                     freq ← not_None (σ !! l);
                     Some <$> build_shapes_extra freq
                 end;
  Ok (σ, {| pf_frequencies := frequencies;
            pf_meta := meta;
            pf_service_windows := service_windows;
            pf_shapes := shapes;
            pf_stops := stops;
            pf_shapes_extra := shapes_extra |}).

(** ** The stages of the pipeline *)

Inductive Units : Set := u_s | u_min | u_h.

Section Pipeline.
Context `{Geometry, TimeCodec, Constants}.

Definition get_duration (timestr1 timestr2 : string) (units : Units) : Q :=
  let duration :=
    inject_Z (timestr_to_seconds timestr2 - timestr_to_seconds timestr1) in
  match units with
  | u_s => duration
  | u_min => (duration / 60)%Q
  | u_h => (duration / 3600)%Q
  end.

Definition build_stop_ids (shape_id : string) : list string :=
  (λ i : nat, join SEP ["stp"; shape_id; str (Z.of_nat i)]) <$> range 2.

Definition build_stop_names (shape_id : string) : list string :=
  (λ i : nat, "Stop " +:+ str (Z.of_nat i) +:+ " on shape " +:+ shape_id
              +:+ " ") <$> range 2.

Definition build_agency (pfeed : ProtoFeed) : Result (list AgencyRow) :=
  meta ← not_None (pf_meta pfeed);
  m ← index meta 0;
  Ok [ {| ag_agency_name := agency_name m;
          ag_agency_url := agency_url m;
          ag_agency_timezone := agency_timezone m |} ].

Definition get_sid (bitlist : list Z) : string :=
  "srv" +:+ join "" (str <$> bitlist).

Definition weekdays (window : ServiceWindow) : list Z :=
  [monday window; tuesday window; wednesday window; thursday window;
   friday window; saturday window; sunday window].

(** The window-to-service dictionary and the set of day patterns that the
    loop over the windows builds. *)
Definition service_by_window_of (windows : list ServiceWindow)
    : gmap string string :=
  foldl (λ d window,
           <[sw_service_window_id window := get_sid (weekdays window)]> d)
        ∅ windows.

Definition bitlists_of (windows : list ServiceWindow) : gset (list Z) :=
  foldl (λ bitlists window, bitlists ∪ {[weekdays window]}) ∅ windows.

Definition build_calendar_etc (pfeed : ProtoFeed)
    : Result (list CalendarRow * gmap string string) :=
  windows ← not_None (pf_service_windows pfeed);
  let service_by_window := service_by_window_of windows in
  let bitlists := bitlists_of windows in
  meta ← not_None (pf_meta pfeed);
  m ← index meta 0;
  let calendar :=
    (λ bitlist, {| ca_service_id := get_sid bitlist;
                   ca_weekdays := bitlist;
                   ca_start_date := start_date m;
                   ca_end_date := end_date m |}) <$> elements bitlists in
  Ok (calendar, service_by_window).

Definition build_routes (σ : Store) (pfeed : ProtoFeed)
    : Result (list RouteRow) :=
  freq ← deref σ (pf_frequencies pfeed);
  let f := unique ((λ r, (fq_route_short_name r, fq_route_long_name r,
                          fq_route_type r, fq_shape_id r))
                   <$> fq_rows freq) in
  Ok ((λ '(short_name, long_name, type, _),
         {| rt_route_short_name := short_name;
            rt_route_long_name := long_name;
            rt_route_type := type;
            rt_route_id := "r" +:+ short_name |}) <$> f).

(** With [use_utm=False] the projection is the identity. *)
Definition build_geometry_by_shape (pfeed : ProtoFeed)
    : Result (list (string * LineString)) :=
  features ← not_None (pf_shapes pfeed);
  Ok (ordered_dict ((λ f, (ft_shape_id f, ft_coords f)) <$> features)).

(** [[shid, i, lon, lat] for i, (lon, lat) in enumerate(coords)] *)
Definition shape_rows (shid : string) (coords : LineString) : list ShapeRow :=
  imap (λ i '(lon, lat),
          {| sh_shape_id := shid;
             sh_shape_pt_sequence := i;
             sh_shape_pt_lon := lon;
             sh_shape_pt_lat := lat |}) coords.

(** One iteration of the loop of [build_shapes]. *)
Definition build_shapes_of (shapes_extra : option (gmap string Z))
    (shape : string) (geom : LineString) : Result (list ShapeRow) :=
  shapes_extra ← not_None shapes_extra;
  match shapes_extra !! shape with
  | None => Ok []
  | Some direction =>
      if bool_decide (direction = 2)
      then Ok (shape_rows (shape +:+ "-1") geom
               ++ shape_rows (shape +:+ "-0") (reverse geom))
      else Ok (shape_rows (shape +:+ SEP +:+ str direction) geom)
  end.

Definition build_shapes (pfeed : ProtoFeed) : Result (list ShapeRow) :=
  geometry_by_shape ← build_geometry_by_shape pfeed;
  for_rows (λ '(shape, geom),
              build_shapes_of (pf_shapes_extra pfeed) shape geom)
           geometry_by_shape.

(** The two stops that [build_stops] makes for one shape. *)
Definition build_stops_of (shape : string) (linestring : LineString)
    : Result (list Stop) :=
  let stop_ids := build_stop_ids shape in
  let stop_names := build_stop_names shape in
  for_rows (λ i : nat,
              stop_id ← index stop_ids i;
              stop_name ← index stop_names i;
              let '(stop_lon, stop_lat) :=
                interpolate linestring (inject_Z (Z.of_nat i)) in
              Ok [ {| stop_id := stop_id; stop_name := stop_name;
                      stop_lon := stop_lon; stop_lat := stop_lat |} ])
           (range 2).

Definition build_stops (pfeed : ProtoFeed) (shapes : option (list ShapeRow))
    : Result (list Stop) :=
  match pf_stops pfeed with
  | Some stops => Ok stops
  | None =>
      match shapes with
      | None => Raise ValueError
      | Some shapes =>
          let geo_shapes := geometrize_shapes false shapes in
          for_rows (λ '(shape, linestring), build_stops_of shape linestring)
                   geo_shapes
      end
  end.

(** A row of the table that [build_trips] iterates over: routes merged
    with the frequencies, merged with the service windows. *)
Definition TripSpec : Type := (RouteRow * FrequencyRow) * ServiceWindow.

Definition merge_routes (routes : list RouteRow) (freq : Frequencies)
    (windows : list ServiceWindow) : list TripSpec :=
  merge (λ '(_, f) w,
           bool_decide (fq_service_window_id f = sw_service_window_id w))
    (merge (λ r f,
              bool_decide (rt_route_short_name r = fq_route_short_name f))
           routes (fq_rows freq))
    windows.

(** The directions a frequency row is expanded into. *)
Definition directions_of (direction : Z) : list Z :=
  if bool_decide (direction = 2) then [0; 1] else [direction].

(** The trips of one direction of one row. *)
Definition trips_in_direction (route window start shape service : string)
    (num_trips_per_direction : Z) (direction : Z) : list TripRow :=
  let shid := shape +:+ SEP +:+ str direction in
  (λ i : nat,
     {| tr_route_id := route;
        tr_trip_id := join SEP ["t"; route; window; start; str direction;
                                str (Z.of_nat i)];
        tr_direction_id := direction;
        tr_shape_id := shid;
        tr_service_id := service |}) <$> range num_trips_per_direction.

(** One iteration of the loop of [build_trips]. *)
Definition build_trips_of (service_by_window : gmap string string)
    (row : TripSpec) : Result (list TripRow) :=
  let '((rt, fq), sw) := row in
  let shape := fq_shape_id fq in
  let route := rt_route_id rt in
  let window := fq_service_window_id fq in
  let start := sw_start_time sw in
  let end_ := sw_end_time sw in
  let duration := get_duration start end_ u_h in
  let frequency := fq_frequency fq in
  if bool_decide (frequency = 0) then Ok []
  else
    let num_trips_per_direction :=
      int_of_float (inject_Z frequency * duration) in
    service ← getitem service_by_window window;
    let direction := fq_direction fq in
    let directions := directions_of direction in
    Ok (direction ← directions;
        trips_in_direction route window start shape service
                           num_trips_per_direction direction).

Definition build_trips (σ : Store) (pfeed : ProtoFeed)
    (routes : list RouteRow) (service_by_window : gmap string string)
    : Result (list TripRow) :=
  freq ← deref σ (pf_frequencies pfeed);
  windows ← not_None (pf_service_windows pfeed);
  for_rows (build_trips_of service_by_window)
           (merge_routes routes freq windows).

Definition get_nearby_stops (geo_stops : list GeoStop)
    (linestring : LineString) (side : string) (buffer : Q)
    : Result (list GeoStop) :=
  let b := ls_buffer linestring buffer 2 in
  b ← (if bool_decide (side ≠ "both") then
         let b0 := ls_buffer linestring (1 # 2) 3 in
         let diff := difference b b0 in
         let polys := polygonize diff in
         if bool_decide (side = "left") then index polys 0
         else index polys 1
       else Ok b);
  Ok (filter (λ g, intersects (gs_geometry g) b = true) geo_stops).

(** The order of Python on the tuples [(d, stop)]. *)
Definition tuple_leb (x y : Q * string) : bool :=
  match (x.1 ?= y.1)%Q with
  | Lt => true
  | Eq => String.leb x.2 y.2
  | Gt => false
  end.

Definition sorted (l : list (Q * string)) : list (Q * string) :=
  merge_sort (λ x y, tuple_leb x y) l.

(** The loop of [compute_stops_dists_times] that measures every stop, or
    reads its distance from the memo table of the shape. *)
Fixpoint measure_stops (linestring : LineString) (shape : string)
    (g : list GeoStop) (dist_by_stop_by_shape : Cache)
    : Result (Cache * list (Q * string)) :=
  match g with
  | [] => Ok (dist_by_stop_by_shape, [])
  | gs :: g' =>
      let stop := gs_stop_id gs in
      dist_by_stop ← getitem dist_by_stop_by_shape shape;
      let '(cache, d) :=
        match dist_by_stop !! stop with
        | Some d => (dist_by_stop_by_shape, d)
        | None =>
            let d :=
              (get_segment_length linestring (gs_geometry gs) / 1000)%Q in
            (<[shape := <[stop := d]> dist_by_stop]> dist_by_stop_by_shape,
             d)
        end in
      '(cache, dists_and_stops) ← measure_stops linestring shape g' cache;
      Ok (cache, (d, stop) :: dists_and_stops)
  end.

(** The distances that replace the measured ones when some measured
    distance is not reasonable. *)
Definition equal_dists (D : Q) (n : nat) : Result (list Q) :=
  delta ← float_div D (inject_Z (Z.of_nat n - 1));
  Ok ((λ i : nat, (inject_Z (Z.of_nat i) * delta)%Q) <$> range (Z.of_nat n)).

(** The part of [compute_stops_dists_times] after the measuring loop. *)
Definition dists_times (linestring : LineString)
    (dists_and_stops : list (Q * string)) (start_time end_time : Q)
    : Result (list string * list Q * list Q) :=
  '(dists, stops) ← match sorted dists_and_stops with
                    | [] => Raise ValueError
                    | l => Ok (fst <$> l, snd <$> l)
                    end;
  let D := (ls_length linestring / 1000)%Q in
  let dists_are_reasonable := forallb (λ d, Qltb d (D + 100)) dists in
  dists ← (if negb dists_are_reasonable
           then equal_dists D (length stops)
           else Ok dists);
  let t0 := start_time in
  let t1 := end_time in
  d0 ← index dists 0;
  d1 ← not_None (last dists);
  let times := (λ x, np_interp x d0 d1 t0 t1) <$> dists in
  Ok (stops, dists, times).

Definition compute_stops_dists_times (geo_stops : list GeoStop)
    (linestring : LineString) (shape : string) (start_time end_time : Q)
    (dist_by_stop_by_shape : Cache)
    : Result (Cache * (list string * list Q * list Q)) :=
  '(cache, dists_and_stops) ←
    measure_stops linestring shape geo_stops dist_by_stop_by_shape;
  r ← dists_times linestring dists_and_stops start_time end_time;
  Ok (cache, r).

(** A row of the table that [build_stop_times] iterates over: a trip with
    the service window read back from its identifier, merged with the
    routes-with-frequencies table. *)
Definition TripDetail : Type := (TripRow * string) * (RouteRow * FrequencyRow).

(** [int((length/speed)*3600)] *)
Definition trip_duration (has_speed : bool) (length : Q) (fq : FrequencyRow)
    : Result Z :=
  if has_speed then
    match fq_speed fq with
    | None => Raise ValueError
    | Some speed => q ← float_div length speed; Ok (int_of_float (q * 3600))
    end
  else Raise KeyError.

(** Start and end time of a trip, read back from its identifier. *)
Definition trip_times (trip : string) (frequency : Z) (duration : Z)
    : Result (Q * Q) :=
  let headway := (3600 / inject_Z frequency)%Q in
  parts ← split SEP trip;
  match parts with
  | [_; route; window; base_timestr; direction; i] =>
      direction ← int_of_str direction;
      let base_time := timestr_to_seconds base_timestr in
      i ← int_of_str i;
      let start_time := (inject_Z base_time + headway * inject_Z i)%Q in
      let end_time := (start_time + inject_Z duration)%Q in
      Ok (start_time, end_time)
  | _ => Raise ValueError
  end.

(** One iteration of the loop of [build_stop_times] when the ProtoFeed has
    no stops: the trip stops at the two ends of its shape. *)
Definition endpoint_stop_times (has_speed : bool)
    (geometry_by_shape : gmap string LineString) (row : TripDetail)
    : Result (list (StopTimeRow Q)) :=
  let '((tr, _), (_, fq)) := row in
  let shape := tr_shape_id tr in
  geom ← getitem geometry_by_shape shape;
  let length := (ls_length geom / 1000)%Q in
  duration ← trip_duration has_speed length fq;
  let frequency := fq_frequency fq in
  if bool_decide (frequency = 0) then Ok []
  else
    let trip := tr_trip_id tr in
    '(start_time, end_time) ← trip_times trip frequency duration;
    let stop_ids := build_stop_ids shape in
    stop0 ← index stop_ids 0;
    stop1 ← index stop_ids 1;
    Ok [ Build_StopTimeRow trip stop0 0 start_time start_time 0%Q;
         Build_StopTimeRow trip stop1 1 end_time end_time length ].

(** [[[trip, stop, j, time, time, dist] for j, (stop, time, dist) in
    enumerate(zip(stops, times, dists))]] *)
Definition stop_time_rows (trip : string) (stops : list string)
    (times dists : list Q) : list (StopTimeRow Q) :=
  imap (λ j '(stop, time, dist),
          Build_StopTimeRow trip stop j time time dist)
       (zip (zip stops times) dists).

(** One iteration of the loop when the ProtoFeed has stops. *)
Definition nearby_stop_times (has_speed : bool)
    (geometry_by_shape : gmap string LineString) (geo_stops : list GeoStop)
    (side : string) (buffer : Q) (row : TripDetail)
    (dist_by_stop_by_shape : Cache)
    : Result (Cache * list (StopTimeRow Q)) :=
  let '((tr, _), (_, fq)) := row in
  let shape := tr_shape_id tr in
  geom ← getitem geometry_by_shape shape;
  stops ← get_nearby_stops geo_stops geom side buffer;
  let length := (ls_length geom / 1000)%Q in
  duration ← trip_duration has_speed length fq;
  let frequency := fq_frequency fq in
  if bool_decide (frequency = 0) then Ok (dist_by_stop_by_shape, [])
  else
    let trip := tr_trip_id tr in
    '(start_time, end_time) ← trip_times trip frequency duration;
    '(cache, (stops, dists, times)) ←
      compute_stops_dists_times stops geom shape start_time end_time
                                dist_by_stop_by_shape;
    Ok (cache, stop_time_rows trip stops times dists).

(** The trips table with the service window of every trip, merged with
    the routes-with-frequencies table. *)
Definition merge_trips (routes : list RouteRow) (freq : Frequencies)
    (trips : list TripRow) : Result (list TripDetail) :=
  let routes :=
    merge (λ r f,
             bool_decide (rt_route_short_name r = fq_route_short_name f))
          routes (fq_rows freq) in
  trips ← mapM (λ t, parts ← split SEP (tr_trip_id t);
                     service_window_id ← index parts 2;
                     Ok (t, service_window_id)) trips;
  Ok (merge (λ '(t, service_window_id) '(r, f),
               bool_decide (tr_route_id t = rt_route_id r)
               && bool_decide (service_window_id = fq_service_window_id f))
            trips routes).

(** The rows of [build_stop_times] with times in seconds. *)
Definition stop_time_seconds (σ : Store) (pfeed : ProtoFeed)
    (routes : list RouteRow) (shapes : list ShapeRow) (trips : list TripRow)
    (buffer : Q) : Result (list (StopTimeRow Q)) :=
  freq ← deref σ (pf_frequencies pfeed);
  trips ← merge_trips routes freq trips;
  let geometry_by_shape := dict (geometrize_shapes true shapes) in
  let dist_by_stop_by_shape : Cache := (λ _, ∅) <$> geometry_by_shape in
  match pf_stops pfeed with
  | None =>
      for_rows (endpoint_stop_times (has_speed freq) geometry_by_shape) trips
  | Some stops =>
      let geo_stops := geometrize_stops stops in
      meta ← not_None (pf_meta pfeed);
      m ← index meta 0;
      side ← getitem traffic_by_timezone (agency_timezone m);
      snd <$> for_rows_st
                (nearby_stop_times (has_speed freq) geometry_by_shape
                                   geo_stops side buffer)
                trips dist_by_stop_by_shape
  end.

(** [applymap] of the inverse time conversion on the two time columns. *)
Definition render_times (r : StopTimeRow Q) : StopTimeRow string :=
  Build_StopTimeRow (st_trip_id r) (st_stop_id r) (st_stop_sequence r)
    (seconds_to_timestr (st_arrival_time r))
    (seconds_to_timestr (st_departure_time r))
    (st_shape_dist_traveled r).

Definition build_stop_times (σ : Store) (pfeed : ProtoFeed)
    (routes : list RouteRow) (shapes : list ShapeRow) (trips : list TripRow)
    (buffer : Q) : Result (list (StopTimeRow string)) :=
  g ← stop_time_seconds σ pfeed routes shapes trips buffer;
  Ok (render_times <$> (g : list (StopTimeRow Q))).

(** [stops[stops.stop_id.isin(stop_times.stop_id)]] *)
Definition stops_in_stop_times {T} (stops : list Stop)
    (stop_times : list (StopTimeRow T)) : list Stop :=
  filter (λ x, stop_id x ∈ (st_stop_id <$> stop_times)) stops.

Definition build_feed (σ : Store) (pfeed : ProtoFeed) (buffer : Q)
    : Result Feed :=
  agency ← build_agency pfeed;
  '(calendar, service_by_window) ← build_calendar_etc pfeed;
  routes ← build_routes σ pfeed;
  shapes ← build_shapes pfeed;
  stops ← build_stops pfeed (Some shapes);
  trips ← build_trips σ pfeed routes service_by_window;
  stop_times ← build_stop_times σ pfeed routes shapes trips buffer;
  let stops := stops_in_stop_times stops stop_times in
  Ok {| agency := agency; calendar := calendar; routes := routes;
        shapes := shapes; stops := stops; stop_times := stop_times;
        trips := trips |}.

End Pipeline.

(** ** Notions used to state the properties *)

(** The directions asked of a path by the frequency rows that name it. *)
Definition directions_asked (freq : Frequencies) (shape : string) : list Z :=
  unique (fq_direction
          <$> filter (λ r, fq_shape_id r = shape) (fq_rows freq)).

(** The point sequence of the rows of a shape. *)
Definition coords (rows : list ShapeRow) : LineString :=
  (λ r, (sh_shape_pt_lon r, sh_shape_pt_lat r)) <$> rows.

(** The times that [numpy.interp] gives the distances of a trip between
    its first and its last distance. *)
Definition interp_times (dists : list Q) (t0 t1 : Q) : list Q :=
  (λ x, np_interp x (default 0%Q (head dists)) (default 0%Q (last dists))
                  t0 t1) <$> dists.


(** * A small network to run the pipeline on *)

Module Sample.

(** A planar test geometry in metres: lengths are taxicab lengths, the
    buffer of a linestring is the set of points within the radius of one
    of its vertices, the splitting line is the x axis, and a stop is
    measured by its offset along the x axis from the first vertex. *)
Definition taxicab (p q : Point) : Q :=
  (Qabs (q.1 - p.1) + Qabs (q.2 - p.2))%Q.

Fixpoint path_length (l : LineString) : Q :=
  match l with
  | p :: l' =>
      match l' with
      | q :: _ => (taxicab p q + path_length l')%Q
      | [] => 0%Q
      end
  | [] => 0%Q
  end.

Definition endpoint (l : LineString) (x : Q) : Point :=
  if Qeq_bool x 0 then default (0%Q, 0%Q) (head l)
  else default (0%Q, 0%Q) (last l).

Definition near (l : LineString) (r : Q) (cap_style : Z) (p : Point) : bool :=
  existsb (λ v, Qle_bool (taxicab v p) r) l.

Definition halves (b : Point → bool) : list (Point → bool) :=
  [ (λ p, b p && Qle_bool 0 p.2); (λ p, b p && negb (Qle_bool 0 p.2)) ].

Definition offset (l : LineString) (p : Point) : Q :=
  Qabs (p.1 - (default (0%Q, 0%Q) (head l)).1).

Definition linestrings (use_utm : bool) (rows : list ShapeRow)
    : list (string * LineString) :=
  (λ k, (k, (λ r, (sh_shape_pt_lon r, sh_shape_pt_lat r))
            <$> filter (λ r, sh_shape_id r = k) rows))
    <$> unique (sh_shape_id <$> rows).

Definition points (stops : list Stop) : list GeoStop :=
  (λ x, {| gs_stop_id := stop_id x;
           gs_geometry := (stop_lon x, stop_lat x) |}) <$> stops.

Global Instance geometry : Geometry := {|
  Polygon := Point → bool;
  ls_length := path_length;
  interpolate := endpoint;
  ls_buffer := near;
  difference := λ a b p, a p && negb (b p);
  polygonize := halves;
  intersects := λ p b, b p;
  get_segment_length := offset;
  geometrize_shapes := linestrings;
  geometrize_stops := points |}.

(** Time strings [HH:MM:SS]. *)
Definition hms_to_seconds (x : string) : Z :=
  match split ":" x with
  | Ok [hours; mins; seconds] =>
      match parse_nat hours, parse_nat mins, parse_nat seconds with
      | Some a, Some b, Some c => a * 3600 + b * 60 + c
      | _, _, _ => 0
      end
  | _ => 0
  end.

Definition two_digits (n : Z) : string :=
  if bool_decide (n < 10) then "0" +:+ str n else str n.

Definition seconds_to_hms (x : Q) : string :=
  let seconds := int_of_float x in
  two_digits (seconds `div` 3600) +:+ ":"
  +:+ two_digits ((seconds `mod` 3600) `div` 60) +:+ ":"
  +:+ two_digits (seconds `mod` 60).

Global Instance time_codec : TimeCodec := {|
  timestr_to_seconds := hms_to_seconds;
  seconds_to_timestr := seconds_to_hms |}.

Global Instance constants : Constants := {|
  BUFFER := 10%Q;
  traffic_by_timezone :=
    {[ "Pacific/Auckland" := "left"; "Europe/Paris" := "right" ]} |}.

Definition window (id : string) (start_time end_time : string)
    (days : Z) : ServiceWindow :=
  {| sw_service_window_id := id;
     sw_start_time := start_time; sw_end_time := end_time;
     monday := days; tuesday := days; wednesday := days; thursday := days;
     friday := days; saturday := 0; sunday := 0 |}.

Definition meta : Meta :=
  {| agency_name := "Sample Transit";
     agency_url := "http://example.org";
     agency_timezone := "Pacific/Auckland";
     start_date := "20260101";
     end_date := "20261231";
     default_route_speed := Some 20%Q |}.

Definition frequency_row (name window : string) (direction frequency : Z)
    (speed : option Q) (shape : string) : FrequencyRow :=
  {| fq_route_short_name := name;
     fq_route_long_name := "Route " +:+ name;
     fq_route_type := None;
     fq_service_window_id := window;
     fq_direction := direction;
     fq_frequency := frequency;
     fq_speed := speed;
     fq_shape_id := shape |}.

(** Straight paths of 6 km along the x axis, at a given height. *)
Definition path (id : string) (y : Q) : Feature :=
  {| ft_shape_id := id;
     ft_coords := [(0%Q, y); (2000%Q, y); (6000%Q, y)] |}.

Definition features : list Feature :=
  [path "a" 0; path "unused" 0; path "b" 100000].

(** One route running both ways at 4 trips an hour during a window of two
    hours and a half, given to the constructor without a speed column. *)
Definition frequencies : Frequencies :=
  {| has_speed := false;
     fq_rows := [frequency_row "51X" "weekday_peak" 2 4 None "a"] |}.

Definition store : gmap nat Frequencies := {[ 0%nat := frequencies ]}.

(** The same with a second route on the path far away. *)
Definition two_routes : Frequencies :=
  {| has_speed := false;
     fq_rows := [ frequency_row "51X" "weekday_peak" 2 4 None "a";
                  frequency_row "7" "weekday_peak" 1 1 None "b" ] |}.

(** Two windows with the same days and one with other days. *)
Definition windows : list ServiceWindow :=
  [ window "weekday_peak" "07:00:00" "09:30:00" 1;
    window "weekday_evening" "17:00:00" "19:00:00" 1;
    window "closed" "00:00:00" "01:00:00" 0 ].

(** The frequencies table that the constructor leaves in the store, and
    the ProtoFeed it makes. *)
Definition both_ways : FrequencyRow :=
  {| fq_route_short_name := "51X";
     fq_route_long_name := "Route 51X";
     fq_route_type := Some 3;
     fq_service_window_id := "weekday_peak";
     fq_direction := 2;
     fq_frequency := 4;
     fq_speed := Some 20%Q;
     fq_shape_id := "a" |}.

Definition cleaned : Frequencies :=
  {| has_speed := true; fq_rows := [both_ways] |}.

Definition pfeed (stops : option (list Stop)) : ProtoFeed :=
  {| pf_frequencies := Some 0%nat;
     pf_meta := Some [meta];
     pf_service_windows := Some windows;
     pf_shapes := Some features;
     pf_stops := stops;
     pf_shapes_extra := Some {[ "a" := 2 ]} |}.

Definition run (σ : gmap nat Frequencies) (stops : option (list Stop))
    : Result Feed :=
  '(σ, pfeed) ← ProtoFeed_init σ (Some 0%nat) (Some [meta]) (Some windows)
                  (Some features) stops;
  build_feed σ pfeed BUFFER.

(** Stops of a registry: two on the left of path [a], one far from every
    path. *)
Definition stop (id : string) (x y : Q) : Stop :=
  {| stop_id := id; stop_name := "Stop " +:+ id;
     stop_lon := x; stop_lat := y |}.

Definition registry : list Stop :=
  [ stop "A" 0 5; stop "B" 2000 5; stop "Z" 0 5000 ].

(** A row of the table that [build_trips] iterates over, and the fourth
    trip made of it in direction 0. *)
Definition route : RouteRow :=
  {| rt_route_short_name := "51X";
     rt_route_long_name := "Route 51X";
     rt_route_type := Some 3;
     rt_route_id := "r51X" |}.

Definition peak : ServiceWindow :=
  window "weekday_peak" "07:00:00" "09:30:00" 1.

Definition service_by_window : gmap string string :=
  {[ "weekday_peak" := "srv1111100" ]}.

Definition trip : TripRow :=
  {| tr_route_id := "r51X";
     tr_trip_id := "t-r51X-weekday_peak-07:00:00-0-3";
     tr_direction_id := 0;
     tr_shape_id := "a-0";
     tr_service_id := "srv1111100" |}.

Definition geometry_by_shape : gmap string LineString :=
  {[ "a-0" := reverse (ft_coords (path "a" 0));
     "a-1" := ft_coords (path "a" 0) ]}.

(** A route whose short name contains the separator. *)
Definition hyphenated : RouteRow :=
  {| rt_route_short_name := "51-X";
     rt_route_long_name := "Route 51-X";
     rt_route_type := Some 3;
     rt_route_id := "r51-X" |}.

(** Two measured stops, the second 200 km along a shape of 6 km. *)
Definition near_stop : GeoStop :=
  {| gs_stop_id := "A"; gs_geometry := (1000%Q, 5%Q) |}.

Definition far_stop : GeoStop :=
  {| gs_stop_id := "F"; gs_geometry := (200000%Q, 5%Q) |}.

Definition empty_cache : gmap string (gmap string Q) := {[ "a-1" := ∅ ]}.

(** The tables of the stages for the registry above. *)
Definition from_Ok {A} (d : A) (r : Result A) : A :=
  match r with Ok a => a | Raise _ => d end.

Definition σ' : gmap nat Frequencies := <[ 0%nat := cleaned ]> store.


Definition calendar_table : list CalendarRow :=
  Eval vm_compute in
    from_Ok [] (fst <$> build_calendar_etc (pfeed (Some registry))).

Definition window_services : gmap string string :=
  service_by_window_of windows.

Definition route_table : list RouteRow :=
  Eval vm_compute in from_Ok [] (build_routes σ' (pfeed (Some registry))).

Definition shape_table : list ShapeRow :=
  Eval vm_compute in from_Ok [] (build_shapes (pfeed (Some registry))).

Definition trip_table : list TripRow :=
  Eval vm_compute in
    from_Ok [] (build_trips σ' (pfeed (Some registry)) route_table
                            window_services).

Definition stop_time_table : list (StopTimeRow string) :=
  Eval vm_compute in
    from_Ok [] (build_stop_times σ' (pfeed (Some registry)) route_table
                                 shape_table trip_table BUFFER).

End Sample.

(** * Properties *)

(** ** Numbers *)


Lemma int_of_float_nonneg (x : Q) : (0 <= x)%Q → int_of_float x = Qfloor x.
Proof.
  destruct x as [n d]; unfold int_of_float, Qfloor, Qle; simpl; intros.
  apply Z.quot_div_nonneg; lia.
Qed.


Lemma filter_all {A} (P : A → Prop) `{!∀ x, Decision (P x)} (l : list A) :
  Forall P l → filter P l = l.
Proof.
  induction 1 as [|x l Hx _ IH]; [done|].
  by rewrite filter_cons_True, IH.
Qed.

Lemma filter_none {A} (P : A → Prop) `{!∀ x, Decision (P x)} (l : list A) :
  Forall (λ x, ¬ P x) l → filter P l = [].
Proof.
  induction 1 as [|x l Hx _ IH]; [done|].
  by rewrite filter_cons_False.
Qed.

Lemma bind_two {A B} (g : A → list B) (a b : A) : [a; b] ≫= g = g a ++ g b.
Proof. cbn. by rewrite app_nil_r. Qed.

Lemma bind_one {A B} (g : A → list B) (a : A) : [a] ≫= g = g a.
Proof. cbn. by rewrite app_nil_r. Qed.

(** ** Linear interpolation *)

Section Interpolation.
Local Open Scope Q_scope.

Lemma ramp_bounds (x d0 d1 t0 t1 : Q) :
  d0 < d1 → t0 <= t1 → d0 <= x → x <= d1 →
  t0 <= (t1 - t0) / (d1 - d0) * (x - d0) + t0 <= t1.
Proof.
  intros Hd Ht Hx0 Hx1.
  assert (Hslope : 0 <= (t1 - t0) / (d1 - d0)).
  { apply Qle_shift_div_l; lra. }
  assert (Hfull : (t1 - t0) / (d1 - d0) * (d1 - d0) == t1 - t0).
  { field. lra. }
  split.
  - assert (0 <= (t1 - t0) / (d1 - d0) * (x - d0)).
    { apply Qmult_le_0_compat; lra. }
    lra.
  - assert ((t1 - t0) / (d1 - d0) * (x - d0)
            <= (t1 - t0) / (d1 - d0) * (d1 - d0)).
    { rewrite !(Qmult_comm ((t1 - t0) / (d1 - d0))).
      apply Qmult_le_compat_r; lra. }
    lra.
Qed.


Lemma np_interp_bounds (x d0 d1 t0 t1 : Q) :
  d0 <= d1 → t0 <= t1 → t0 <= np_interp x d0 d1 t0 t1 <= t1.
Proof.
  intros Hd Ht. unfold np_interp.
  destruct (Qlt_le_dec d1 x) as [?|Hx1]; [lra|].
  destruct (Qlt_le_dec x d0) as [?|Hx0]; [lra|].
  destruct (Qle_bool d1 x) eqn:Hb1; [lra|].
  destruct (Qeq_bool d0 x) eqn:Hb0; [lra|].
  apply ramp_bounds; try lra.
  assert (¬ d1 <= x).
  { intros Hle. apply Qle_bool_iff in Hle. congruence. }
  lra.
Qed.


End Interpolation.

(** ** Results, dictionaries and distinct values *)

Lemma mapM_Ok {A B} (f : A → Result B) (g : A → B) (l : list A) :
  Forall (λ x, f x = Ok (g x)) l → mapM f l = Ok (g <$> l).
Proof.
  induction 1 as [|x l Hx _ IH]; [done|].
  cbn [mapM]. rewrite Hx, IH. done.
Qed.

Lemma for_rows_Ok {A B} (f : A → Result (list B)) (g : A → list B)
    (l : list A) :
  Forall (λ x, f x = Ok (g x)) l → for_rows f l = Ok (l ≫= g).
Proof.
  induction 1 as [|x l Hx _ IH]; [done|].
  cbn [for_rows]. rewrite Hx, IH. done.
Qed.

Lemma length_bind_const {A B} (g : A → list B) (n : nat) (l : list A) :
  Forall (λ x, length (g x) = n) l → length (l ≫= g) = (n * length l)%nat.
Proof.
  induction 1 as [|x l Hx _ IH]; [cbn; lia|].
  rewrite bind_cons, length_app, Hx, IH. cbn [length]. lia.
Qed.

Lemma elem_of_unique_go `{EqDecision A} (seen l : list A) (x : A) :
  x ∈ unique_go seen l ↔ x ∈ l ∧ x ∉ seen.
Proof.
  revert seen. induction l as [|y l IH]; intros seen; cbn [unique_go].
  - rewrite elem_of_nil. split; [done|]. by intros [? _].
  - case_decide as Hy.
    + rewrite IH, elem_of_cons. split; [tauto|].
      intros [[->|?] ?]; tauto.
    + rewrite !elem_of_cons, IH, not_elem_of_cons.
      destruct (decide (x = y)) as [->|]; tauto.
Qed.

Lemma elem_of_unique `{EqDecision A} (l : list A) (x : A) :
  x ∈ unique l ↔ x ∈ l.
Proof.
  unfold unique. rewrite elem_of_unique_go, elem_of_nil. tauto.
Qed.

Lemma NoDup_unique_go `{EqDecision A} (seen l : list A) :
  NoDup (unique_go seen l).
Proof.
  revert seen. induction l as [|y l IH]; intros seen; cbn [unique_go].
  - constructor.
  - case_decide; [done|]. constructor; [|done].
    rewrite elem_of_unique_go, not_elem_of_cons. tauto.
Qed.

Lemma NoDup_unique `{EqDecision A} (l : list A) : NoDup (unique l).
Proof. apply NoDup_unique_go. Qed.

Lemma dict_lookup_keys {V} (v : string → V) (keys : list string)
    (k : string) :
  dict ((λ k, (k, v k)) <$> keys) !! k
  = if decide (k ∈ keys) then Some (v k) else None.
Proof.
  unfold dict.
  cut (∀ m : gmap string V,
         foldl (λ d kv, <[kv.1 := kv.2]> d) m ((λ k, (k, v k)) <$> keys) !! k
         = if decide (k ∈ keys) then Some (v k) else m !! k).
  { intros Hcut. rewrite Hcut. by rewrite lookup_empty. }
  induction keys as [|k' keys IH]; intros m; [done|].
  cbn [fmap list_fmap foldl fst snd]. rewrite IH.
  destruct (decide (k = k')) as [->|Hne].
  - rewrite lookup_insert_eq.
    rewrite (decide_True (P := k' ∈ k' :: keys)) by (by left).
    by case_decide.
  - rewrite lookup_insert_ne by done.
    destruct (decide (k ∈ keys)) as [Hk|Hk].
    + rewrite decide_True; [done|by right].
    + rewrite decide_False; [done|].
      by intros [?|?]%elem_of_cons.
Qed.

(** ** Joining and splitting on the separator *)

Lemma append_cons (c : Ascii.ascii) (a b : string) :
  String c a +:+ b = String c (a +:+ b).
Proof. done. Qed.

Lemma append_assoc (a b c : string) : (a +:+ b) +:+ c = a +:+ (b +:+ c).
Proof.
  induction a as [|x a IH]; [done|]. by rewrite !append_cons, IH.
Qed.

Lemma append_nil_r (a : string) : a +:+ "" = a.
Proof. induction a as [|x a IH]; [done|]. by rewrite append_cons, IH. Qed.

Lemma contains_SEP_cons (c : Ascii.ascii) (s : string) :
  contains SEP (String c s) = false ↔ c ≠ "-"%char ∧ contains SEP s = false.
Proof.
  unfold SEP. cbn [contains String.prefix].
  destruct (ascii_dec "-" c) as [<-|Hc].
  - assert (String.prefix "" s = true) as -> by (by destruct s).
    split; [done|]. by intros [[] _].
  - simpl. split; [intros; split; congruence|]. by intros [_ ?].
Qed.

Lemma contains_SEP_append (a b : string) :
  contains SEP a = false → contains SEP b = false →
  contains SEP (a +:+ b) = false.
Proof.
  induction a as [|c a IH]; [done|]. rewrite append_cons.
  rewrite !contains_SEP_cons. intros [Hc Ha] Hb. auto.
Qed.

(** Reading a component without separator moves it to [cur]. *)
Lemma split_go_component (p cur rest : string) :
  contains SEP p = false →
  split_go SEP 0 cur (p +:+ rest) = split_go SEP 0 (cur +:+ p) rest.
Proof.
  revert cur. induction p as [|c p IH]; intros cur Hp.
  - by rewrite append_nil_r.
  - apply contains_SEP_cons in Hp as [Hc Hp].
    rewrite append_cons. cbn [split_go String.prefix SEP].
    destruct (ascii_dec "-" c) as [<-|_]; [done|].
    rewrite IH by done. by rewrite append_assoc.
Qed.

(** Reading a separator closes the component. *)
Lemma split_go_SEP (cur rest : string) :
  split_go SEP 0 cur (SEP +:+ rest) = cur :: split_go SEP 0 "" rest.
Proof.
  unfold SEP. rewrite append_cons. cbn [split_go String.prefix].
  destruct (ascii_dec "-" "-") as [_|[]]; [|done].
  by assert (String.prefix "" ("" +:+ rest) = true) as ->
    by (by destruct rest).
Qed.

Lemma split_go_join (cur p : string) (ps : list string) :
  Forall (λ x, contains SEP x = false) (p :: ps) →
  split_go SEP 0 cur (join SEP (p :: ps)) = (cur +:+ p) :: ps.
Proof.
  revert cur p. induction ps as [|q ps IH]; intros cur p Hps.
  - apply Forall_cons in Hps as [Hp _]. cbn [join].
    rewrite <-(append_nil_r p) at 1. by rewrite split_go_component.
  - apply Forall_cons in Hps as [Hp Hps].
    change (join SEP (p :: q :: ps)) with (p +:+ SEP +:+ join SEP (q :: ps)).
    rewrite split_go_component, split_go_SEP, IH by done. done.
Qed.

Lemma split_join (parts : list string) :
  parts ≠ [] → Forall (λ x, contains SEP x = false) parts →
  split SEP (join SEP parts) = Ok parts.
Proof.
  destruct parts as [|p ps]; [done|]. intros _ Hps.
  unfold split, SEP. fold SEP. by rewrite split_go_join.
Qed.

(** The decimal notation of a natural number is made of digits. *)
Lemma contains_SEP_pretty_N_go (x : N) (acc : string) :
  contains SEP acc = false → contains SEP (pretty_N_go x acc) = false.
Proof.
  revert acc. induction (N.lt_wf_0 x) as [x _ IH]; intros acc Hacc.
  assert (x = 0 ∨ 0 < x)%N as [->|Hx] by lia.
  - by rewrite pretty_N_go_0.
  - rewrite pretty_N_go_step by done. apply IH.
    { by apply N.div_lt. }
    apply contains_SEP_cons. split; [|done].
    unfold pretty_N_char. by repeat case_match.
Qed.

Lemma contains_SEP_str (n : Z) : 0 ≤ n → contains SEP (str n) = false.
Proof.
  intros Hn. unfold str, pretty, pretty_Z.
  destruct n as [|p|p]; [done| |lia].
  unfold pretty, pretty_positive, pretty, pretty_N.
  case_decide; [done|]. by apply contains_SEP_pretty_N_go.
Qed.

(** ** Reading back a number *)

Lemma digit_of_pretty_N_char (x : N) :
  (x < 10)%N → digit_of (pretty_N_char x) = Some (Z.of_N x).
Proof.
  intros Hx.
  assert (x = 0 ∨ x = 1 ∨ x = 2 ∨ x = 3 ∨ x = 4 ∨ x = 5 ∨ x = 6 ∨ x = 7
          ∨ x = 8 ∨ x = 9)%N as Hcases by lia.
  repeat (destruct Hcases as [->|Hcases]; [done|]). by subst x.
Qed.

Lemma parse_digits_pretty_N_go (x : N) (s : string) :
  parse_digits 0 (pretty_N_go x s) = parse_digits (Z.of_N x) s.
Proof.
  revert s. induction (N.lt_wf_0 x) as [x _ IH]; intros s.
  assert (x = 0 ∨ 0 < x)%N as [->|Hx] by lia.
  - by rewrite pretty_N_go_0.
  - rewrite pretty_N_go_step by done.
    rewrite IH by (by apply N.div_lt). cbn [parse_digits].
    rewrite digit_of_pretty_N_char by (by apply N.mod_lt).
    f_equal. rewrite (N.div_mod x 10) at 3 by done. lia.
Qed.

Lemma int_of_str_str (n : Z) : 0 ≤ n → int_of_str (str n) = Ok n.
Proof.
  intros Hn. destruct n as [|p|p]; [done| |lia].
  unfold str, pretty, pretty_Z, pretty, pretty_positive, pretty, pretty_N.
  case_decide; [done|].
  pose proof (parse_digits_pretty_N_go (N.pos p) "") as Hparse.
  pose proof (pretty_N_go_ne_dash (N.pos p) "") as Hdash.
  unfold int_of_str.
  destruct (pretty_N_go (N.pos p) "") as [|c s] eqn:Hgo; [done|].
  case_decide as Hc.
  - subst c. by destruct (Hdash s).
  - unfold parse_nat. by rewrite Hparse.
Qed.

Section Properties.
Context `{Geometry, TimeCodec, Constants}.

(** ** Trip Expander *)





(** ** Calendar Resolver *)

Lemma elem_of_bitlists_of (windows : list ServiceWindow) (b : list Z) :
  b ∈ bitlists_of windows ↔ b ∈ weekdays <$> windows.
Proof.
  unfold bitlists_of.
  cut (∀ X : gset (list Z),
         b ∈ foldl (λ bitlists window, bitlists ∪ {[weekdays window]})
                   X windows
         ↔ b ∈ X ∨ b ∈ weekdays <$> windows).
  { intros Hcut. rewrite Hcut, elem_of_empty. tauto. }
  induction windows as [|w windows IH]; intros X; cbn [foldl].
  - rewrite fmap_nil, elem_of_nil. tauto.
  - rewrite IH, fmap_cons, elem_of_union, elem_of_singleton, elem_of_cons.
    tauto.
Qed.

Lemma service_by_window_of_other (windows : list ServiceWindow)
    (d : gmap string string) (k : string) :
  k ∉ sw_service_window_id <$> windows →
  foldl (λ d window,
           <[sw_service_window_id window := get_sid (weekdays window)]> d)
        d windows !! k = d !! k.
Proof.
  revert d. induction windows as [|w windows IH]; intros d Hk; [done|].
  rewrite fmap_cons, not_elem_of_cons in Hk. destruct Hk as [Hne Hk].
  cbn [foldl]. rewrite IH by done. by rewrite lookup_insert_ne.
Qed.



(** ** Shape Builder *)


Lemma my_agg_group (group : list FrequencyRow) :
  group ≠ [] →
  my_agg group = Ok (match unique (fq_direction <$> group) with
                     | [d] => d
                     | _ => 2
                     end).
Proof.
  intros Hgroup. unfold my_agg.
  destruct (unique (fq_direction <$> group)) as [|d [|d' dirs]] eqn:Hdirs.
  - destruct group as [|r group]; [done|].
    assert (Hin : fq_direction r ∈ unique (fq_direction <$> r :: group))
      by (apply elem_of_unique; by left).
    rewrite Hdirs in Hin. by apply elem_of_nil in Hin.
  - cbn [length]. rewrite bool_decide_false by lia. cbn [orb].
    case_bool_decide as Hd; [|done].
    by apply list_elem_of_singleton in Hd as <-.
  - cbn [length]. by rewrite bool_decide_true by lia.
Qed.

Lemma build_shapes_extra_lookup (freq : Frequencies) (shape : string) :
  ∃ extra,
    build_shapes_extra freq = Ok extra ∧
    extra !! shape = match directions_asked freq shape with
                     | [] => None
                     | [d] => Some d
                     | _ => Some 2
                     end.
Proof.
  set (v := λ k, match unique (fq_direction <$>
                    filter (λ r, fq_shape_id r = k) (fq_rows freq)) with
                 | [d] => d
                 | _ => 2
                 end).
  exists (dict ((λ k, (k, v k)) <$> unique (fq_shape_id <$> fq_rows freq))).
  split.
  - unfold build_shapes_extra, groupby_shape_id.
    erewrite (mapM_Ok _ (λ kg, (kg.1, v kg.1))).
    + cbn [fmap Result_fmap]. by rewrite <-list_fmap_compose.
    + apply Forall_fmap, Forall_forall. intros k Hk. cbn.
      apply elem_of_unique, list_elem_of_fmap in Hk as (r & -> & Hr).
      rewrite my_agg_group; [done|].
      intros Hnil.
      assert (Hin : r ∈ filter (λ r', fq_shape_id r' = fq_shape_id r)
                               (fq_rows freq))
        by (by apply list_elem_of_filter).
      rewrite Hnil in Hin. by apply elem_of_nil in Hin.
  - rewrite dict_lookup_keys. unfold directions_asked.
    case_decide as Hk.
    + apply elem_of_unique, list_elem_of_fmap in Hk as (r & -> & Hr).
      unfold v.
      destruct (unique _) as [|d [|d' dirs]] eqn:Hdirs; try done.
      assert (Hin : fq_direction r ∈ unique (fq_direction <$>
                filter (λ r', fq_shape_id r' = fq_shape_id r) (fq_rows freq))).
      { apply elem_of_unique, list_elem_of_fmap_2.
        by apply list_elem_of_filter. }
      rewrite Hdirs in Hin. by apply elem_of_nil in Hin.
    + rewrite filter_none; [done|].
      apply Forall_forall. intros r Hr Heq. apply Hk.
      apply elem_of_unique. subst shape. by apply list_elem_of_fmap_2.
Qed.


(** ** Synthetic stops *)

Lemma build_stops_of_endpoints (shape : string) (linestring : LineString) :
  build_stops_of shape linestring
  = Ok [ {| stop_id := join SEP ["stp"; shape; "0"];
            stop_name := "Stop 0 on shape " +:+ shape +:+ " ";
            stop_lon := (interpolate linestring 0).1;
            stop_lat := (interpolate linestring 0).2 |};
         {| stop_id := join SEP ["stp"; shape; "1"];
            stop_name := "Stop 1 on shape " +:+ shape +:+ " ";
            stop_lon := (interpolate linestring 1).1;
            stop_lat := (interpolate linestring 1).2 |} ].
Proof.
  unfold build_stops_of, build_stop_ids, build_stop_names.
  change (range 2) with [0%nat; 1%nat].
  cbn [for_rows fmap list_fmap index lookup list_lookup mbind Result_bind].
  change (inject_Z (Z.of_nat 0)) with 0%Q.
  change (inject_Z (Z.of_nat 1)) with 1%Q.
  destruct (interpolate linestring 0) as [lon0 lat0].
  destruct (interpolate linestring 1) as [lon1 lat1].
  done.
Qed.


(** ** Stop-Time Synthesizer *)


Lemma Qltb_lt (x y : Q) : Qltb x y = true ↔ (x < y)%Q.
Proof.
  unfold Qltb. rewrite negb_true_iff, <-not_true_iff_false, Qle_bool_iff.
  split; [apply Qnot_le_lt|apply Qlt_not_le].
Qed.

Lemma sorted_Permutation (l : list (Q * string)) : sorted l ≡ₚ l.
Proof. apply merge_sort_Permutation. Qed.

Lemma length_sorted (l : list (Q * string)) : length (sorted l) = length l.
Proof. by rewrite sorted_Permutation. Qed.

Lemma forallb_reasonable (D : Q) (l : list (Q * string)) :
  forallb (λ d, Qltb d (D + 100)) (fst <$> sorted l) = true
  ↔ Forall (λ x, (x.1 < D + 100)%Q) l.
Proof.
  rewrite forallb_forall, <-(sorted_Permutation l), Forall_forall.
  split.
  - intros Hall x Hx. apply Qltb_lt, Hall, list_elem_of_In.
    by apply list_elem_of_fmap_2.
  - intros Hall d Hd.
    apply list_elem_of_In, list_elem_of_fmap in Hd as (x & -> & Hx).
    by apply Qltb_lt, Hall.
Qed.

Lemma measure_stops_Ok (linestring : LineString) (shape : string)
    (g : list GeoStop) (cache : gmap string (gmap string Q)) :
  is_Some (cache !! shape) →
  ∃ cache' measured,
    measure_stops linestring shape g cache = Ok (cache', measured) ∧
    snd <$> measured = gs_stop_id <$> g ∧
    is_Some (cache' !! shape).
Proof.
  revert cache. induction g as [|gs g IH]; intros cache [by_stop Hshape].
  - exists cache, []. by rewrite Hshape.
  - cbn [measure_stops]. unfold getitem. rewrite Hshape.
    cbn [mbind Result_bind].
    destruct (by_stop !! gs_stop_id gs) as [d|] eqn:Hstop.
    + destruct (IH cache) as (cache' & measured & -> & Hids & Hsome);
        [by eexists|].
      eexists cache', _. split; [done|]. cbn. by rewrite Hids.
    + edestruct (IH (<[shape := <[gs_stop_id gs :=
          (get_segment_length linestring (gs_geometry gs) / 1000)%Q]>
          by_stop]> cache)) as (cache' & measured & -> & Hids & Hsome).
      { rewrite lookup_insert_eq. by eexists. }
      eexists cache', _. split; [done|]. cbn. by rewrite Hids.
Qed.

Lemma first_last_times (stops : list string) (dists : list Q) (t0 t1 : Q) :
  dists ≠ [] →
  (d0 ← index dists 0;
   d1 ← not_None (last dists);
   Ok (stops, dists, (λ x, np_interp x d0 d1 t0 t1) <$> dists))
  = Ok (stops, dists, interp_times dists t0 t1).
Proof.
  intros Hdists. unfold interp_times, index.
  destruct dists as [|d0 dists]; [done|]. cbn [lookup list_lookup head].
  destruct (last (d0 :: dists)) as [d1|] eqn:Hlast; [done|].
  by apply last_None in Hlast.
Qed.

(** The three courses of [dists_times]: measured distances kept, replaced
    by equal steps, and the division by zero on a single stop. *)
Lemma dists_times_cases (linestring : LineString)
    (measured : list (Q * string)) (t0 t1 : Q) :
  measured ≠ [] →
  let D := (ls_length linestring / 1000)%Q in
  let n := length measured in
  let stops := snd <$> sorted measured in
  let equal := (λ i : nat,
    (inject_Z (Z.of_nat i) * (D / inject_Z (Z.of_nat n - 1)))%Q) <$> seq 0 n in
  (Forall (λ x, (x.1 < D + 100)%Q) measured →
   dists_times linestring measured t0 t1
   = Ok (stops, fst <$> sorted measured,
         interp_times (fst <$> sorted measured) t0 t1)) ∧
  (¬ Forall (λ x, (x.1 < D + 100)%Q) measured → (2 ≤ n)%nat →
   dists_times linestring measured t0 t1
   = Ok (stops, equal, interp_times equal t0 t1)) ∧
  (¬ Forall (λ x, (x.1 < D + 100)%Q) measured → n = 1%nat →
   dists_times linestring measured t0 t1 = Raise ZeroDivisionError).
Proof.
  intros Hne D n stops equal.
  assert (Hlen : length (sorted measured) = n) by apply length_sorted.
  unfold dists_times.
  destruct (sorted measured) as [|x l] eqn:Hsorted.
  { destruct measured; [done|]. cbn in Hlen. subst n. done. }
  cbn [mbind Result_bind]. fold D.
  split; [|split].
  - intros Hall. apply (forallb_reasonable D) in Hall.
    rewrite Hsorted in Hall. rewrite Hall. cbn [negb].
    cbn [mbind Result_bind]. by apply first_last_times.
  - intros Hall Hn.
    destruct (forallb _ (fst <$> x :: l)) eqn:Hb.
    { exfalso. apply Hall, (forallb_reasonable D). by rewrite Hsorted. }
    cbn [negb]. unfold equal_dists, float_div.
    rewrite length_fmap, Hlen.
    destruct (Qeq_bool (inject_Z (Z.of_nat n - 1)) 0) eqn:Hzero.
    { apply Qeq_bool_iff in Hzero. unfold Qeq in Hzero. simpl in Hzero. lia. }
    cbn [mbind Result_bind]. unfold range. rewrite Nat2Z.id.
    apply first_last_times. fold equal.
    intros Hnil. apply (f_equal length) in Hnil.
    unfold equal in Hnil. rewrite length_fmap, length_seq in Hnil.
    cbn in Hnil. lia.
  - intros Hall Hn.
    destruct (forallb _ (fst <$> x :: l)) eqn:Hb.
    { exfalso. apply Hall, (forallb_reasonable D). by rewrite Hsorted. }
    cbn [negb]. unfold equal_dists, float_div.
    rewrite length_fmap, Hlen, Hn. done.
Qed.

Global Instance tuple_leb_total : Total (λ x y : Q * string, tuple_leb x y).
Proof.
  intros [d1 s1] [d2 s2]. unfold tuple_leb. cbn [fst snd].
  rewrite <-(Qcompare_antisym d1 d2).
  destruct (d1 ?= d2)%Q; cbn [CompOpp]; [|by left|by right].
  destruct (String.leb_total s1 s2) as [->| ->]; [by left|by right].
Qed.

Lemma tuple_leb_fst (x y : Q * string) : tuple_leb x y → (x.1 <= y.1)%Q.
Proof.
  unfold tuple_leb. destruct (Qcompare_spec x.1 y.1) as [Heq|Hlt|Hgt].
  - intros _. rewrite Heq. apply Qle_refl.
  - intros _. by apply Qlt_le_weak.
  - done.
Qed.

Lemma Sorted_dists_sorted (l : list (Q * string)) :
  Sorted Qle (fst <$> sorted l).
Proof.
  apply (Sorted_fmap _ (λ x y : Q * string, tuple_leb x y));
    [apply tuple_leb_fst|].
  apply (Sorted_merge_sort _).
Qed.

Lemma Sorted_steps (delta : Q) (i n : nat) :
  (0 <= delta)%Q →
  Sorted Qle ((λ i : nat, (inject_Z (Z.of_nat i) * delta)%Q) <$> seq i n).
Proof.
  intros Hdelta. revert i. induction n as [|n IH]; intros i; [constructor|].
  cbn [seq fmap list_fmap]. constructor; [apply IH|].
  destruct n as [|n]; constructor.
  apply Qmult_le_compat_r; [|done].
  rewrite <-Zle_Qle. lia.
Qed.




Lemma measure_stops_ids (linestring : LineString) (shape : string)
    (g : list GeoStop) (cache cache' : gmap string (gmap string Q))
    (measured : list (Q * string)) :
  measure_stops linestring shape g cache = Ok (cache', measured) →
  snd <$> measured = gs_stop_id <$> g.
Proof.
  revert cache measured. induction g as [|gs g IH]; intros cache measured.
  - cbn. by intros [= _ <-].
  - cbn [measure_stops]. destruct (getitem cache shape) as [by_stop|];
      [|done].
    cbn [mbind Result_bind].
    destruct (by_stop !! gs_stop_id gs) as [d|].
    + destruct (measure_stops linestring shape g cache)
        as [[c m]|] eqn:Hrest; [|done].
      cbn. intros [= <- <-]. cbn. f_equal. by eapply IH.
    + destruct (measure_stops linestring shape g _)
        as [[c m]|] eqn:Hrest; [|done].
      cbn. intros [= <- <-]. cbn. f_equal. by eapply IH.
Qed.

(** What [compute_stops_dists_times] returns, when it returns. *)
Lemma compute_stops_dists_times_Ok (geo_stops : list GeoStop)
    (linestring : LineString) (shape : string) (t0 t1 : Q)
    (cache cache' : gmap string (gmap string Q))
    (stops : list string) (dists times : list Q) :
  compute_stops_dists_times geo_stops linestring shape t0 t1 cache
  = Ok (cache', (stops, dists, times)) →
  (0 <= ls_length linestring)%Q →
  length stops = length geo_stops ∧
  length dists = length geo_stops ∧
  times = interp_times dists t0 t1 ∧
  Sorted Qle dists.
Proof.
  unfold compute_stops_dists_times.
  destruct (measure_stops linestring shape geo_stops cache)
    as [[c measured]|] eqn:Hmeasure; [|done].
  cbn [mbind Result_bind].
  destruct (dists_times linestring measured t0 t1)
    as [[[stops' dists'] times']|] eqn:Hdt; [|done].
  cbn [mbind Result_bind]. intros [= -> -> -> ->] Hlength.
  assert (Hn : length measured = length geo_stops).
  { apply measure_stops_ids, (f_equal length) in Hmeasure.
    by rewrite !length_fmap in Hmeasure. }
  destruct (decide (measured = [])) as [->|Hne]; [done|].
  destruct (dists_times_cases linestring measured t0 t1 Hne)
    as (Hkeep & Hequal & Hzero).
  set (D := (ls_length linestring / 1000)%Q) in *.
  destruct (forallb (λ d, Qltb d (D + 100)) (fst <$> sorted measured))
    eqn:Hall.
  - apply forallb_reasonable in Hall. rewrite Hkeep in Hdt by done.
    injection Hdt as <- <- <-.
    rewrite !length_fmap, length_sorted.
    repeat split; [done..|]. apply Sorted_dists_sorted.
  - assert (Hnot : ¬ Forall (λ x, (x.1 < D + 100)%Q) measured).
    { intros Hforall%forallb_reasonable. congruence. }
    destruct (decide (length measured = 1%nat)) as [Hone|Hmore].
    { rewrite Hzero in Hdt by done. done. }
    assert (Htwo : (2 ≤ length measured)%nat).
    { destruct measured as [|? [|? ?]]; cbn in *; done || lia. }
    rewrite Hequal in Hdt by done. injection Hdt as <- <- <-.
    rewrite !length_fmap, length_sorted, length_seq.
    repeat split; [done..|]. apply Sorted_steps.
    apply Qle_shift_div_l.
    + rewrite <-(Zlt_Qlt 0). lia.
    + unfold D. rewrite Qmult_0_l. apply Qle_shift_div_l; [done|].
      by rewrite Qmult_0_l.
Qed.






(** A trip of nonzero frequency without a stop near its shape stops the
    whole loop: unpacking the empty list of measured stops raises
    [ValueError]. *)
Lemma nearby_stop_times_no_stops (has_speed : bool)
    (geometry_by_shape : gmap string LineString) (geo_stops : list GeoStop)
    (side : string) (buffer : Q) (tr : TripRow) (service_window_id : string)
    (rt : RouteRow) (fq : FrequencyRow)
    (cache : gmap string (gmap string Q)) (geom : LineString)
    (duration : Z) (t0 t1 : Q) :
  geometry_by_shape !! tr_shape_id tr = Some geom →
  get_nearby_stops geo_stops geom side buffer = Ok [] →
  trip_duration has_speed (ls_length geom / 1000) fq = Ok duration →
  fq_frequency fq ≠ 0 →
  trip_times (tr_trip_id tr) (fq_frequency fq) duration = Ok (t0, t1) →
  nearby_stop_times has_speed geometry_by_shape geo_stops side buffer
    ((tr, service_window_id), (rt, fq)) cache = Raise ValueError.
Proof.
  intros Hgeom Hnear Hduration Hfreq Htimes.
  unfold nearby_stop_times, getitem. rewrite Hgeom. cbn [mbind Result_bind].
  rewrite Hnear. cbn [mbind Result_bind]. rewrite Hduration.
  cbn [mbind Result_bind]. rewrite bool_decide_false by done.
  rewrite Htimes. done.
Qed.

(** ** Feed Assembler *)


(** ** ProtoFeed *)

(** C10. Constructing a ProtoFeed from a reference to a frequencies table
    and a meta table with a first row succeeds, keeps the caller's
    reference as its [frequencies], and writes to the store at that
    reference: afterwards the caller's table has the column [speed], every
    missing route type is 3, and every missing speed (every speed, when
    the column was added) is the default speed of the meta table. Tables
    at other references are untouched. *)
Theorem ProtoFeed_init_in_place (σ : gmap nat Frequencies) (l : nat)
    (freq : Frequencies) (m : Meta) (rest : list Meta)
    (service_windows : option (list ServiceWindow))
    (shapes : option (list Feature)) (stops : option (list Stop)) :
  σ !! l = Some freq →
  let clean := λ r,
    {| fq_route_short_name := fq_route_short_name r;
       fq_route_long_name := fq_route_long_name r;
       fq_route_type := Some (default 3 (fq_route_type r));
       fq_service_window_id := fq_service_window_id r;
       fq_direction := fq_direction r;
       fq_frequency := fq_frequency r;
       fq_speed := if has_speed freq
                   then fillna (default_route_speed m) (fq_speed r)
                   else default_route_speed m;
       fq_shape_id := fq_shape_id r |} in
  let cleaned := {| has_speed := true; fq_rows := clean <$> fq_rows freq |} in
  ∃ σ' pfeed,
    ProtoFeed_init σ (Some l) (Some (m :: rest)) service_windows shapes stops
    = Ok (σ', pfeed) ∧
    pf_frequencies pfeed = Some l ∧
    σ' !! l = Some cleaned ∧
    σ' = <[l := cleaned]> σ ∧
    (∀ l', l' ≠ l → σ' !! l' = σ !! l').
Proof.
  intros Hl clean cleaned.
  destruct (build_shapes_extra_lookup cleaned "") as (extra & Hextra & _).
  assert (Hcleaned :
    fill_speed (default_route_speed m) (add_speed (fill_route_type freq))
    = cleaned).
  { unfold fill_speed, add_speed, fill_route_type, cleaned.
    cbn [has_speed fq_rows].
    destruct (has_speed freq) eqn:Hcol; cbn [has_speed fq_rows];
      f_equal; rewrite <-?list_fmap_compose;
      apply list_fmap_ext; intros i r _; unfold clean, map_speed;
      cbn; rewrite ?Hcol; by destruct (fq_route_type r). }
  exists (<[l := cleaned]> σ), {|
    pf_frequencies := Some l; pf_meta := Some (m :: rest);
    pf_service_windows := service_windows; pf_shapes := shapes;
    pf_stops := stops; pf_shapes_extra := Some extra |}.
  split.
  - unfold ProtoFeed_init. rewrite Hl.
    cbn [not_None mbind Result_bind index lookup list_lookup].
    repeat (rewrite lookup_insert_eq; cbn [not_None mbind Result_bind]).
    rewrite !insert_insert_eq, Hcleaned, Hextra. done.
  - split; [done|]. split; [apply lookup_insert_eq|]. split; [done|].
    intros l' Hl'. by rewrite lookup_insert_ne.
Qed.

(** ** Trip identifiers *)

Lemma split_trip_id (route window start : string) (direction : Z) (i : nat) :
  contains SEP route = false →
  contains SEP window = false →
  contains SEP start = false →
  0 ≤ direction →
  split SEP (join SEP ["t"; route; window; start; str direction;
                       str (Z.of_nat i)])
  = Ok ["t"; route; window; start; str direction; str (Z.of_nat i)].
Proof.
  intros Hroute Hwindow Hstart Hdir.
  apply split_join; [done|].
  repeat (apply Forall_cons; split); try done;
    apply contains_SEP_str; lia.
Qed.

(** C8. The identifier of a trip made for a direction that is not
    negative, from a route identifier, a service window identifier and a
    start time string none of which contains the separator, splits on the
    separator into the six components it was joined from, in order: the
    window identifier is the third, the direction digit and the index are
    the fifth and the sixth. *)
Theorem trip_id_split (route window start shape service : string)
    (n direction : Z) (t : TripRow) :
  contains SEP route = false →
  contains SEP window = false →
  contains SEP start = false →
  0 ≤ direction →
  t ∈ trips_in_direction route window start shape service n direction →
  ∃ i : nat,
    (i < Z.to_nat n)%nat ∧
    split SEP (tr_trip_id t)
    = Ok ["t"; route; window; start; str direction; str (Z.of_nat i)] ∧
    (split SEP (tr_trip_id t) ≫= λ parts, index parts 2) = Ok window ∧
    (split SEP (tr_trip_id t) ≫= λ parts, index parts 4)
    = Ok (str direction) ∧
    (split SEP (tr_trip_id t) ≫= λ parts, index parts 5)
    = Ok (str (Z.of_nat i)).
Proof.
  intros Hroute Hwindow Hstart Hdir Ht.
  unfold trips_in_direction in Ht.
  apply list_elem_of_fmap in Ht as (i & -> & Hi).
  unfold range in Hi. apply elem_of_seq in Hi.
  exists i. split; [lia|]. cbn [tr_trip_id].
  rewrite split_trip_id by done. by repeat split.
Qed.

(** The trips of the Trip Expander have the start and end times that the
    Stop-Time Synthesizer reads back from their identifiers. *)
Lemma trip_times_built (route window start shape service : string)
    (n direction frequency duration : Z) (t : TripRow) :
  contains SEP route = false →
  contains SEP window = false →
  contains SEP start = false →
  0 ≤ direction →
  t ∈ trips_in_direction route window start shape service n direction →
  ∃ i : nat,
    (i < Z.to_nat n)%nat ∧
    let start_time := (inject_Z (timestr_to_seconds start)
                       + 3600 / inject_Z frequency
                         * inject_Z (Z.of_nat i))%Q in
    trip_times (tr_trip_id t) frequency duration
    = Ok (start_time, (start_time + inject_Z duration)%Q).
Proof.
  intros Hroute Hwindow Hstart Hdir Ht.
  unfold trips_in_direction in Ht.
  apply list_elem_of_fmap in Ht as (i & -> & Hi).
  unfold range in Hi. apply elem_of_seq in Hi.
  exists i. split; [lia|]. unfold trip_times. cbn [tr_trip_id].
  rewrite split_trip_id by done. cbn [mbind Result_bind].
  rewrite !int_of_str_str by lia. done.
Qed.

End Properties.

(** * The properties on the sample network *)







Lemma trip_id_split_witness :
  (contains SEP "r51X" = false ∧
   contains SEP "weekday_peak" = false ∧
   contains SEP "07:00:00" = false ∧
   0 ≤ 0 ∧
   Sample.trip ∈ trips_in_direction "r51X" "weekday_peak" "07:00:00" "a"
                   "srv1111100" 10 0) ∧
  split SEP (tr_trip_id Sample.trip)
  = Ok ["t"; "r51X"; "weekday_peak"; "07:00:00"; "0"; "3"].
Proof.
  assert (Hin : Sample.trip ∈ trips_in_direction "r51X" "weekday_peak"
                  "07:00:00" "a" "srv1111100" 10 0).
  { apply list_elem_of_fmap. exists 3%nat. split; [reflexivity|].
    apply elem_of_seq. simpl. lia. }
  split; [by repeat split|].
  destruct (trip_id_split "r51X" "weekday_peak" "07:00:00" "a" "srv1111100"
              10 0 Sample.trip eq_refl eq_refl eq_refl (Z.le_refl 0) Hin)
    as (i & _ & Hsplit & _).
  reflexivity.
Defined.

(** A route name that contains the separator: the identifier of its trip
    splits into seven components, and the third is not the window. *)
Lemma trip_id_split_hyphenated :
  ∃ t rest,
    build_trips_of Sample.service_by_window
      ((Sample.hyphenated,
        Sample.frequency_row "51-X" "weekday_peak" 0 1 None "a"),
       Sample.peak) = Ok (t :: rest) ∧
    tr_trip_id t
    = join SEP ["t"; "r51-X"; "weekday_peak"; "07:00:00"; str 0; str 0] ∧
    split SEP (tr_trip_id t)
    = Ok ["t"; "r51"; "X"; "weekday_peak"; "07:00:00"; "0"; "0"] ∧
    split SEP (tr_trip_id t)
    ≠ Ok ["t"; "r51-X"; "weekday_peak"; "07:00:00"; str 0; str 0] ∧
    (split SEP (tr_trip_id t) ≫= λ parts, index parts 2) = Ok "X".
Proof. eexists _, _. by vm_compute. Qed.



Lemma ProtoFeed_init_in_place_witness :
  Sample.store !! 0%nat = Some Sample.frequencies ∧
  ∃ σ' pfeed,
    ProtoFeed_init Sample.store (Some 0%nat) (Some [Sample.meta])
      (Some Sample.windows) (Some Sample.features) None = Ok (σ', pfeed) ∧
    pf_frequencies pfeed = Some 0%nat ∧
    σ' !! 0%nat = Some Sample.cleaned ∧
    σ' !! 0%nat ≠ Sample.store !! 0%nat.
Proof.
  split; [reflexivity|].
  destruct (ProtoFeed_init_in_place Sample.store 0 Sample.frequencies
              Sample.meta [] (Some Sample.windows) (Some Sample.features)
              None eq_refl)
    as (σ' & pfeed & Hinit & Href & Hcleaned & _).
  exists σ', pfeed. split; [exact Hinit|]. split; [exact Href|].
  split; [exact Hcleaned|]. rewrite Hcleaned. by vm_compute.
Defined.

(** C7. A network with a registry near path [a] only and a route on path [b]:
    the trip of that route has no stop near its shape, and the pipeline
    stops with [ValueError] instead of a feed. Without that route the
    same registry gives a feed with 40 stop-time rows. *)
Lemma build_feed_no_nearby_stops :
  Sample.run {[ 0%nat := Sample.two_routes ]} (Some Sample.registry)
  = Raise ValueError ∧
  (length ∘ stop_times) <$> Sample.run Sample.store (Some Sample.registry)
  = Ok 40%nat.
Proof. by vm_compute. Qed.

(** * Further properties of the pipeline *)

(** ** Strings *)

Lemma length_append (a b : string) :
  String.length (a +:+ b) = (String.length a + String.length b)%nat.
Proof.
  induction a as [|c a IH]; [done|].
  rewrite append_cons. cbn [String.length]. by rewrite IH.
Qed.

Lemma append_inj_suffix (s1 s2 t1 t2 : string) :
  String.length t1 = String.length t2 →
  s1 +:+ t1 = s2 +:+ t2 → s1 = s2 ∧ t1 = t2.
Proof.
  intros Hlen. revert s2. induction s1 as [|c s1 IH]; intros [|c' s2] Heq.
  - done.
  - exfalso. change (t1 = String c' (s2 +:+ t2)) in Heq. subst t1.
    cbn [String.length] in Hlen. rewrite length_append in Hlen. lia.
  - exfalso. change (String c (s1 +:+ t1) = t2) in Heq. subst t2.
    cbn [String.length] in Hlen. rewrite length_append in Hlen. lia.
  - rewrite !append_cons in Heq. injection Heq as -> Heq.
    destruct (IH _ Heq) as [-> ->]. done.
Qed.

Lemma join_empty_cons (p : string) (ps : list string) :
  join "" (p :: ps) = p +:+ join "" ps.
Proof.
  destruct ps as [|q ps]; [|done]. cbn [join]. by rewrite append_nil_r.
Qed.

Section Further.
Context `{Geometry, TimeCodec, Constants}.

(** ** Synthetic stops have identifiers of their own *)

Lemma stop_id_inj (shape shape' d d' : string) :
  String.length d = String.length d' →
  join SEP ["stp"; shape; d] = join SEP ["stp"; shape'; d'] →
  shape = shape' ∧ d = d'.
Proof.
  intros Hlen Heq. cbn [join] in Heq.
  apply (inj (String.app "stp")), (inj (String.app SEP)) in Heq.
  apply append_inj_suffix in Heq as [-> Heq].
  - by apply (inj (String.app SEP)) in Heq.
  - rewrite !length_append. by rewrite Hlen.
Qed.

(** X1. Without a stop registry, when the shapes of the built shapes table
    have distinct identifiers, the stops that [build_stops] makes have
    distinct identifiers: the two stops of a shape differ, and stops of
    different shapes differ. *)
Theorem build_stops_ids_distinct (pfeed : ProtoFeed)
    (shapes : list ShapeRow) :
  pf_stops pfeed = None →
  NoDup (fst <$> geometrize_shapes false shapes) →
  ∃ stops,
    build_stops pfeed (Some shapes) = Ok stops ∧
    length stops = (2 * length (geometrize_shapes false shapes))%nat ∧
    NoDup (stop_id <$> stops).
Proof.
  intros Hstops Hnodup. unfold build_stops. rewrite Hstops.
  set (stops_of := λ x : string * LineString,
    [ {| stop_id := join SEP ["stp"; x.1; "0"];
         stop_name := "Stop 0 on shape " +:+ x.1 +:+ " ";
         stop_lon := (interpolate x.2 0).1;
         stop_lat := (interpolate x.2 0).2 |};
      {| stop_id := join SEP ["stp"; x.1; "1"];
         stop_name := "Stop 1 on shape " +:+ x.1 +:+ " ";
         stop_lon := (interpolate x.2 1).1;
         stop_lat := (interpolate x.2 1).2 |} ]).
  exists (geometrize_shapes false shapes ≫= stops_of). split; [|split].
  - apply for_rows_Ok, Forall_forall. intros [shape linestring] _.
    apply build_stops_of_endpoints.
  - apply length_bind_const, Forall_forall. by intros [shape linestring] _.
  - induction (geometrize_shapes false shapes) as [|[shape ls] geo IH];
      [constructor|].
    rewrite fmap_cons in Hnodup. apply NoDup_cons in Hnodup as [Hnew Hnodup].
    rewrite bind_cons, fmap_app. apply NoDup_app. split; [|split].
    + cbn. apply NoDup_cons. split; [|apply NoDup_singleton].
      intros Heq%list_elem_of_singleton.
      by apply stop_id_inj in Heq as [_ ?].
    + intros id Hid Hrest.
      apply list_elem_of_fmap in Hrest as (x & -> & Hx).
      apply list_elem_of_bind in Hx as ([shape' ls'] & Hx & Hin).
      assert (Hshape : shape = shape').
      { cbn in Hid, Hx.
        repeat (apply elem_of_cons in Hid as [Hid|Hid]);
          repeat (apply elem_of_cons in Hx as [->|Hx]);
          try (by apply elem_of_nil in Hid); try (by apply elem_of_nil in Hx);
          cbn in Hid; by apply stop_id_inj in Hid as [? _]. }
      subst shape'. apply Hnew.
      by apply (list_elem_of_fmap_2 fst) in Hin.
    + by apply IH.
Qed.

(** ** Service identifiers *)

Lemma get_sid_inj (b1 b2 : list Z) :
  Forall (λ x, x = 0 ∨ x = 1) b1 → Forall (λ x, x = 0 ∨ x = 1) b2 →
  get_sid b1 = get_sid b2 → b1 = b2.
Proof.
  unfold get_sid. intros Hb1 Hb2 Heq.
  apply (inj (String.app "srv")) in Heq.
  revert b2 Hb2 Heq. induction Hb1 as [|x b1 Hx _ IH]; intros b2 Hb2 Heq.
  - destruct Hb2 as [|y b2 [-> | ->] _]; [done|..];
      rewrite fmap_cons, join_empty_cons in Heq; done.
  - destruct Hb2 as [|y b2 Hy Hb2].
    { rewrite fmap_cons, join_empty_cons in Heq.
      by destruct Hx as [-> | ->]. }
    rewrite !fmap_cons, !join_empty_cons in Heq.
    destruct Hx as [-> | ->], Hy as [-> | ->];
      try done; f_equal; apply IH; try done;
      by apply (inj (String.app _)) in Heq.
Qed.

(** X2. When every day flag of every service window is 0 or 1, the
    service identifiers of the calendar are distinct: different day
    patterns never share a service identifier. *)
Theorem calendar_service_ids_distinct (pfeed : ProtoFeed)
    (windows : list ServiceWindow) (m : Meta) (rest : list Meta) :
  pf_service_windows pfeed = Some windows →
  pf_meta pfeed = Some (m :: rest) →
  Forall (λ w, Forall (λ x, x = 0 ∨ x = 1) (weekdays w)) windows →
  ∃ calendar service_by_window,
    build_calendar_etc pfeed = Ok (calendar, service_by_window) ∧
    NoDup (ca_service_id <$> calendar).
Proof.
  intros Hwindows Hmeta Hflags. unfold build_calendar_etc.
  rewrite Hwindows, Hmeta.
  cbn [not_None index mbind Result_bind lookup list_lookup].
  eexists _, _. split; [done|].
  rewrite <-list_fmap_compose. apply NoDup_fmap_2_strong.
  - intros b1 b2 Hb1 Hb2 Heq. cbn in Heq.
    apply elem_of_elements, elem_of_bitlists_of, list_elem_of_fmap in Hb1
      as (w1 & -> & Hw1).
    apply elem_of_elements, elem_of_bitlists_of, list_elem_of_fmap in Hb2
      as (w2 & -> & Hw2).
    rewrite Forall_forall in Hflags. apply get_sid_inj; auto.
  - apply NoDup_elements.
Qed.

(** X3. The window-to-service dictionary has an entry for the identifier
    of every service window and for nothing else; when several windows
    share an identifier, the entry is the service of the last of them. *)
Theorem service_by_window_last (windows1 windows2 : list ServiceWindow)
    (w : ServiceWindow) (k : string) :
  sw_service_window_id w ∉ sw_service_window_id <$> windows2 →
  service_by_window_of (windows1 ++ w :: windows2) !! sw_service_window_id w
  = Some (get_sid (weekdays w)) ∧
  (k ∉ sw_service_window_id <$> (windows1 ++ w :: windows2) →
   service_by_window_of (windows1 ++ w :: windows2) !! k = None).
Proof.
  intros Hlast. unfold service_by_window_of. split.
  - rewrite foldl_app. cbn [foldl].
    rewrite service_by_window_of_other by done. apply lookup_insert_eq.
  - intros Hk. by rewrite service_by_window_of_other.
Qed.

(** ** The rows of the Trip Expander *)

Lemma trip_id_inj (route window start : string) (d d' : Z) (i i' : nat) :
  (d = d' ∨ (d = 0 ∧ d' = 1) ∨ (d = 1 ∧ d' = 0)) →
  join SEP ["t"; route; window; start; str d; str (Z.of_nat i)]
  = join SEP ["t"; route; window; start; str d'; str (Z.of_nat i')] →
  d = d' ∧ i = i'.
Proof.
  intros Hd Heq. cbn [join] in Heq.
  do 8 apply (inj (String.app _)) in Heq.
  destruct Hd as [<-|[[-> ->]|[-> ->]]]; [|done..].
  do 2 apply (inj (String.app _)) in Heq.
  split; [done|]. apply (inj pretty) in Heq. lia.
Qed.

(** X4. The trips that one row of the merged table is expanded into have
    identifiers that differ from one another. *)
Theorem build_trips_of_ids_distinct (service_by_window : gmap string string)
    (row : TripSpec) (trips : list TripRow) :
  build_trips_of service_by_window row = Ok trips →
  NoDup (tr_trip_id <$> trips).
Proof.
  destruct row as [[rt fq] sw]. unfold build_trips_of.
  case_bool_decide; [intros [= <-]; constructor|].
  destruct (getitem _ _) as [service|]; [|done].
  cbn [mbind Result_bind]. intros [= <-].
  set (n := int_of_float _).
  assert (Hone : ∀ d,
    NoDup (tr_trip_id <$> trips_in_direction (rt_route_id rt)
             (fq_service_window_id fq) (sw_start_time sw) (fq_shape_id fq)
             service n d)).
  { intros d. unfold trips_in_direction. rewrite <-list_fmap_compose.
    apply NoDup_fmap_2_strong; [|apply NoDup_seq].
    intros i i' _ _ Heq. cbn [compose tr_trip_id] in Heq.
    apply trip_id_inj in Heq as [_ ?]; [done|by left]. }
  unfold directions_of. case_bool_decide.
  - rewrite bind_two, fmap_app. apply NoDup_app. split; [done|].
    split; [|done]. intros id Hid Hid'. unfold trips_in_direction in *.
    rewrite <-list_fmap_compose in Hid, Hid'.
    apply list_elem_of_fmap in Hid as (i & -> & _).
    apply list_elem_of_fmap in Hid' as (i' & Heq & _).
    cbn [compose tr_trip_id] in Heq.
    apply trip_id_inj in Heq as [? _]; [done|]. right. by left.
  - by rewrite bind_one.
Qed.

(** X5. A row of frequency zero gives no trips, also when its service
    window has no service, and a trip joined with a frequency row of
    frequency zero gives no stop-time rows in either mode and leaves the
    memo table as it is; the geometry of the shape and the speed are read
    before the frequency all the same. *)
Theorem zero_frequency_skipped (service_by_window : gmap string string)
    (has_speed : bool) (geometry_by_shape : gmap string LineString)
    (geo_stops nearby : list GeoStop) (side : string) (buffer : Q)
    (rt : RouteRow) (fq : FrequencyRow) (sw : ServiceWindow) (tr : TripRow)
    (service_window_id : string) (cache : gmap string (gmap string Q))
    (geom : LineString) (duration : Z) :
  fq_frequency fq = 0 →
  geometry_by_shape !! tr_shape_id tr = Some geom →
  trip_duration has_speed (ls_length geom / 1000) fq = Ok duration →
  get_nearby_stops geo_stops geom side buffer = Ok nearby →
  build_trips_of service_by_window ((rt, fq), sw) = Ok [] ∧
  endpoint_stop_times has_speed geometry_by_shape
    ((tr, service_window_id), (rt, fq)) = Ok [] ∧
  nearby_stop_times has_speed geometry_by_shape geo_stops side buffer
    ((tr, service_window_id), (rt, fq)) cache = Ok (cache, []).
Proof.
  intros Hfreq Hgeom Hduration Hnearby. split; [|split].
  - unfold build_trips_of. by rewrite bool_decide_true.
  - unfold endpoint_stop_times, getitem. rewrite Hgeom.
    cbn [mbind Result_bind]. rewrite Hduration. cbn [mbind Result_bind].
    by rewrite bool_decide_true.
  - unfold nearby_stop_times, getitem. rewrite Hgeom.
    cbn [mbind Result_bind]. rewrite Hnearby. cbn [mbind Result_bind].
    rewrite Hduration. cbn [mbind Result_bind].
    by rewrite bool_decide_true.
Qed.

(** ** Loops and joins *)

Lemma for_rows_elem {A B} (f : A → Result (list B)) (l : list A)
    (ys : list B) (z : B) :
  for_rows f l = Ok ys →
  z ∈ ys ↔ ∃ x y, x ∈ l ∧ f x = Ok y ∧ z ∈ y.
Proof.
  revert ys. induction l as [|x l IH]; intros ys; cbn [for_rows].
  - intros [= <-]. split; [by intros ?%elem_of_nil|].
    by intros (? & ? & ?%elem_of_nil & _).
  - destruct (f x) as [y|] eqn:Hx; [|done]. cbn [mbind Result_bind].
    destruct (for_rows f l) as [ys'|]; [|done]. cbn [mbind Result_bind].
    intros [= <-]. rewrite elem_of_app, (IH ys' eq_refl). split.
    + intros [Hz|(x' & y' & Hx' & Hy' & Hz)].
      * exists x, y. split; [by left|done].
      * exists x', y'. split; [by right|done].
    + intros (x' & y' & [->|Hx']%elem_of_cons & Hy' & Hz).
      * left. congruence.
      * right. by exists x', y'.
Qed.

Lemma for_rows_total {A B} (f : A → Result (list B)) (l : list A) :
  (∀ x, x ∈ l → ∃ y, f x = Ok y) → ∃ ys, for_rows f l = Ok ys.
Proof.
  induction l as [|x l IH]; intros Hall; [by eexists|].
  destruct (Hall x) as [y Hy]; [by left|].
  destruct IH as [ys Hys]; [intros x' Hx'; apply Hall; by right|].
  exists (y ++ ys). cbn [for_rows]. by rewrite Hy, Hys.
Qed.

Lemma elem_of_merge {A B} (on : A → B → bool) (left : list A)
    (right : list B) (a : A) (b : B) :
  (a, b) ∈ merge on left right ↔ a ∈ left ∧ b ∈ right ∧ on a b = true.
Proof.
  unfold merge. rewrite list_elem_of_bind. split.
  - intros (a' & Hab & Ha').
    apply list_elem_of_fmap in Hab as (b' & [= -> ->] & Hb').
    apply list_elem_of_filter in Hb' as [? ?]. done.
  - intros (Ha & Hb & Hon). exists a. split; [|done].
    apply list_elem_of_fmap. exists b. split; [done|].
    by apply list_elem_of_filter.
Qed.

(** ** Trips refer to routes, services and shapes of the feed *)

Lemma service_by_window_of_elem (windows : list ServiceWindow)
    (w : ServiceWindow) :
  w ∈ windows →
  ∃ w', w' ∈ windows ∧
        service_by_window_of windows !! sw_service_window_id w
        = Some (get_sid (weekdays w')).
Proof.
  unfold service_by_window_of. generalize (∅ : gmap string string).
  revert w. induction windows as [|w0 windows IH]; intros w d Hw.
  - by apply elem_of_nil in Hw.
  - cbn [foldl].
    destruct (decide (sw_service_window_id w
                      ∈ sw_service_window_id <$> windows)) as [Hin|Hout].
    + apply list_elem_of_fmap in Hin as (w1 & Hid & Hw1).
      destruct (IH w1
                  (<[sw_service_window_id w0 := get_sid (weekdays w0)]> d)
                  Hw1) as (w' & Hw' & Hlook).
      exists w'. split; [by right|]. by rewrite Hid.
    + apply elem_of_cons in Hw as [->|Hw].
      * exists w0. split; [by left|].
        rewrite service_by_window_of_other by done. apply lookup_insert_eq.
      * exfalso. apply Hout. by apply list_elem_of_fmap_2.
Qed.

Lemma build_trips_of_fields (service_by_window : gmap string string)
    (rt : RouteRow) (fq : FrequencyRow) (sw : ServiceWindow)
    (trips : list TripRow) (t : TripRow) :
  build_trips_of service_by_window ((rt, fq), sw) = Ok trips → t ∈ trips →
  tr_route_id t = rt_route_id rt ∧
  service_by_window !! fq_service_window_id fq = Some (tr_service_id t) ∧
  tr_direction_id t ∈ directions_of (fq_direction fq) ∧
  tr_shape_id t = fq_shape_id fq +:+ SEP +:+ str (tr_direction_id t).
Proof.
  unfold build_trips_of. case_bool_decide.
  { intros [= <-] ?%elem_of_nil. done. }
  unfold getitem.
  destruct (service_by_window !! _) as [service|]; [|done].
  cbn [mbind Result_bind]. intros [= <-] Ht.
  apply list_elem_of_bind in Ht as (d & Ht & Hd).
  unfold trips_in_direction in Ht.
  apply list_elem_of_fmap in Ht as (i & -> & _). done.
Qed.

(** X6. With the dictionary and the calendar that [build_calendar_etc]
    makes for the same ProtoFeed, [build_trips] raises no exception, and
    every trip carries a service identifier of the calendar and a route
    identifier of the routes table it was given. *)
Theorem build_trips_after_calendar (σ : gmap nat Frequencies)
    (pfeed : ProtoFeed) (freq : Frequencies) (route_table : list RouteRow)
    (calendar_table : list CalendarRow)
    (service_by_window : gmap string string) :
  deref σ (pf_frequencies pfeed) = Ok freq →
  build_calendar_etc pfeed = Ok (calendar_table, service_by_window) →
  ∃ trip_table,
    build_trips σ pfeed route_table service_by_window = Ok trip_table ∧
    ∀ t, t ∈ trip_table →
      tr_service_id t ∈ ca_service_id <$> calendar_table ∧
      tr_route_id t ∈ rt_route_id <$> route_table.
Proof.
  intros Hfreq Hcalendar. unfold build_calendar_etc in Hcalendar.
  destruct (pf_service_windows pfeed) as [windows|] eqn:Hwindows; [|done].
  cbn [not_None mbind Result_bind] in Hcalendar.
  destruct (pf_meta pfeed) as [meta|]; [|done].
  cbn [not_None mbind Result_bind] in Hcalendar.
  destruct (index meta 0) as [m|]; [|done].
  cbn [mbind Result_bind] in Hcalendar. injection Hcalendar as <- <-.
  unfold build_trips. rewrite Hfreq, Hwindows.
  cbn [not_None mbind Result_bind].
  destruct (for_rows_total (build_trips_of (service_by_window_of windows))
              (merge_routes route_table freq windows)) as [trips Htrips].
  { intros [[rt fq] sw] Hrow. unfold merge_routes in Hrow.
    apply elem_of_merge in Hrow as (_ & Hsw & Hon).
    apply bool_decide_eq_true in Hon.
    destruct (service_by_window_of_elem windows sw Hsw)
      as (w' & _ & Hlook).
    unfold build_trips_of. case_bool_decide; [by eexists|].
    unfold getitem. rewrite Hon, Hlook. by eexists. }
  exists trips. split; [done|]. intros t Ht.
  apply (for_rows_elem _ _ _ t Htrips) in Ht
    as ([[rt fq] sw] & y & Hrow & Hy & Ht).
  destruct (build_trips_of_fields _ _ _ _ _ _ Hy Ht)
    as (Hroute & Hservice & _).
  unfold merge_routes in Hrow.
  apply elem_of_merge in Hrow as (Hleft & Hsw & Hon).
  apply elem_of_merge in Hleft as (Hrt & _ & _).
  apply bool_decide_eq_true in Hon. split.
  - destruct (service_by_window_of_elem windows sw Hsw)
      as (w' & Hw' & Hlook).
    rewrite Hon, Hlook in Hservice. injection Hservice as <-.
    rewrite <-list_fmap_compose. apply list_elem_of_fmap.
    exists (weekdays w'). split; [done|].
    apply elem_of_elements, elem_of_bitlists_of.
    by apply list_elem_of_fmap_2.
  - rewrite Hroute. by apply list_elem_of_fmap_2.
Qed.

Lemma shape_rows_ids (shid : string) (geom : LineString) :
  Forall (λ x, sh_shape_id x = shid) (shape_rows shid geom).
Proof.
  apply Forall_lookup. intros i x Hx. unfold shape_rows in Hx.
  rewrite list_lookup_imap in Hx.
  by apply fmap_Some in Hx as ([lon lat] & _ & ->).
Qed.

Lemma filter_shape_rows (a b : string) (geom : LineString) :
  filter (λ x, sh_shape_id x = a) (shape_rows b geom)
  = if decide (a = b) then shape_rows b geom else [].
Proof.
  case_decide as Hab.
  - subst b. apply filter_all, shape_rows_ids.
  - apply filter_none. eapply Forall_impl; [apply shape_rows_ids|].
    intros x Hx. cbn in Hx. congruence.
Qed.

(** X7. The shape identifier of a trip names a shape of the Shape
    Builder: when the direction code of a frequency row is 0, 1 or 2, the
    rows that [build_shapes] makes for the path of the row under the
    shape identifier of any trip of the row are the points of the path,
    forward or reversed. *)
Theorem trip_shape_built (freq : Frequencies)
    (service_by_window : gmap string string) (rt : RouteRow)
    (fq : FrequencyRow) (sw : ServiceWindow) (trips : list TripRow)
    (t : TripRow) (geom : LineString) :
  fq ∈ fq_rows freq →
  0 ≤ fq_direction fq ≤ 2 →
  build_trips_of service_by_window ((rt, fq), sw) = Ok trips →
  t ∈ trips →
  ∃ extra rows g,
    build_shapes_extra freq = Ok extra ∧
    build_shapes_of (Some extra) (fq_shape_id fq) geom = Ok rows ∧
    (g = geom ∨ g = reverse geom) ∧
    filter (λ x, sh_shape_id x = tr_shape_id t) rows
    = shape_rows (tr_shape_id t) g.
Proof.
  intros Hfq Hrange Htrips Ht.
  destruct (build_trips_of_fields _ _ _ _ _ _ Htrips Ht)
    as (_ & _ & Hdir & Hshape).
  destruct (build_shapes_extra_lookup freq (fq_shape_id fq))
    as (extra & Hextra & Hlook).
  assert (Hasked : fq_direction fq ∈ directions_asked freq (fq_shape_id fq)).
  { unfold directions_asked. apply elem_of_unique, list_elem_of_fmap_2.
    by apply list_elem_of_filter. }
  assert (Hboth : tr_direction_id t = 0 ∨ tr_direction_id t = 1
                  ∨ (tr_direction_id t = fq_direction fq
                     ∧ fq_direction fq ≠ 2)).
  { unfold directions_of in Hdir. case_bool_decide.
    - apply elem_of_cons in Hdir as [->|Hdir]; [by left|].
      apply list_elem_of_singleton in Hdir as ->. right. by left.
    - apply list_elem_of_singleton in Hdir. right. by right. }
  assert (Hne : fq_shape_id fq +:+ "-1" ≠ fq_shape_id fq +:+ "-0").
  { by intros ?%(inj (String.app _)). }
  set (both := shape_rows (fq_shape_id fq +:+ "-1") geom
               ++ shape_rows (fq_shape_id fq +:+ "-0") (reverse geom)).
  assert (Hfilter : 0 ≤ tr_direction_id t ≤ 1 →
    ∃ g, (g = geom ∨ g = reverse geom) ∧
         filter (λ x, sh_shape_id x = tr_shape_id t) both
         = shape_rows (tr_shape_id t) g).
  { intros Hd. unfold both.
    rewrite filter_app, !filter_shape_rows, Hshape.
    assert (tr_direction_id t = 0 ∨ tr_direction_id t = 1) as [-> | ->]
      by lia.
    - exists (reverse geom). split; [by right|].
      rewrite decide_False by done. by rewrite decide_True by done.
    - exists geom. split; [by left|].
      rewrite decide_True by done. rewrite decide_False by done.
      by rewrite app_nil_r. }
  assert (Hbuilt : build_shapes_of (Some extra) (fq_shape_id fq) geom
    = Ok (match directions_asked freq (fq_shape_id fq) with
          | [] => []
          | [d] => if decide (d = 2) then both
                   else shape_rows (fq_shape_id fq +:+ SEP +:+ str d) geom
          | _ => both
          end)).
  { unfold build_shapes_of. cbn [not_None mbind Result_bind].
    rewrite Hlook.
    destruct (directions_asked freq (fq_shape_id fq)) as [|d [|d' dirs]];
      [done| |done].
    case_bool_decide; by case_decide. }
  destruct (directions_asked freq (fq_shape_id fq)) as [|d [|d' dirs]].
  - by apply elem_of_nil in Hasked.
  - apply list_elem_of_singleton in Hasked as <-.
    destruct (decide (fq_direction fq = 2)) as [Htwo|Htwo].
    + destruct Hfilter as (g & Hg & Hrows); [lia|].
      by exists extra, both, g.
    + eexists extra, _, geom. split; [done|]. split; [exact Hbuilt|].
      split; [by left|].
      assert (tr_direction_id t = fq_direction fq) as Heq.
      { unfold directions_of in Hdir.
        rewrite bool_decide_false in Hdir by done.
        by apply list_elem_of_singleton in Hdir. }
      rewrite filter_shape_rows, Hshape, Heq. by rewrite decide_True.
  - destruct Hfilter as (g & Hg & Hrows); [lia|].
    by exists extra, both, g.
Qed.

(** ** The geometry dictionary and the shapes table *)

Lemma dict_set_keys {V} (k : string) (v : V) (d : list (string * V)) :
  fst <$> dict_set k v d
  = if decide (k ∈ fst <$> d) then fst <$> d else (fst <$> d) ++ [k].
Proof.
  induction d as [|[k' v'] d IH]; cbn [dict_set].
  - by rewrite decide_False by (by intros ?%elem_of_nil).
  - destruct (decide (k = k')) as [->|Hne].
    + by rewrite decide_True by (by left).
    + rewrite !fmap_cons, IH. cbn [fst].
      destruct (decide (k ∈ fst <$> d)) as [Hin|Hout].
      * by rewrite decide_True by (by right).
      * rewrite decide_False; [done|].
        by intros [?|?]%elem_of_cons.
Qed.

Lemma elem_of_dict_set_new {V} (k : string) (v : V) (d : list (string * V)) :
  (k, v) ∈ dict_set k v d.
Proof.
  induction d as [|[k' v'] d IH]; cbn [dict_set]; [by left|].
  case_decide; [by left|by right].
Qed.

Lemma elem_of_dict_set_old {V} (k k' : string) (v v' : V)
    (d : list (string * V)) :
  k' ≠ k → (k', v') ∈ d → (k', v') ∈ dict_set k v d.
Proof.
  intros Hne. induction d as [|[k0 v0] d IH]; cbn [dict_set].
  - by intros ?%elem_of_nil.
  - intros [[= <- <-]|Hin]%elem_of_cons; case_decide; subst.
    + done.
    + by left.
    + by right.
    + right. by apply IH.
Qed.

Lemma elem_of_dict_set_inv {V} (k k' : string) (v v' : V)
    (d : list (string * V)) :
  (k', v') ∈ dict_set k v d → (k' = k ∧ v' = v) ∨ (k', v') ∈ d.
Proof.
  induction d as [|[k0 v0] d IH]; cbn [dict_set].
  - intros [= -> ->]%list_elem_of_singleton. by left.
  - case_decide; subst.
    + intros [[= -> ->]|Hin]%elem_of_cons; [by left|]. right. by right.
    + intros [[= -> ->]|Hin]%elem_of_cons; [right; by left|].
      destruct (IH Hin) as [?|?]; [by left|]. right. by right.
Qed.

Lemma ordered_dict_snoc {V} (l : list (string * V)) (x : string * V) :
  ordered_dict (l ++ [x]) = dict_set x.1 x.2 (ordered_dict l).
Proof. unfold ordered_dict. by rewrite foldl_app. Qed.

Lemma unique_go_snoc `{EqDecision A} (seen l : list A) (k : A) :
  unique_go seen (l ++ [k])
  = unique_go seen l ++ (if decide (k ∈ seen ++ l) then [] else [k]).
Proof.
  revert seen. induction l as [|x l IH]; intros seen.
  - cbn [app unique_go]. rewrite app_nil_r. by case_decide.
  - cbn [app unique_go]. case_decide as Hx.
    + rewrite IH. f_equal. apply decide_ext.
      rewrite !elem_of_app, elem_of_cons. split; [tauto|].
      intros [?|[Hk|?]]; [tauto| |tauto]. subst k. tauto.
    + rewrite IH. cbn [app]. do 2 f_equal. apply decide_ext.
      rewrite elem_of_cons, !elem_of_app, elem_of_cons. tauto.
Qed.

Lemma unique_snoc `{EqDecision A} (l : list A) (k : A) :
  unique (l ++ [k]) = if decide (k ∈ l) then unique l else unique l ++ [k].
Proof.
  unfold unique. rewrite unique_go_snoc. cbn [app].
  case_decide; [by rewrite app_nil_r|done].
Qed.

Lemma ordered_dict_keys {V} (l : list (string * V)) :
  fst <$> ordered_dict l = unique (fst <$> l).
Proof.
  induction l as [|x l IH] using rev_ind; [done|].
  rewrite ordered_dict_snoc, dict_set_keys, fmap_app, IH.
  cbn [fmap list_fmap]. rewrite unique_snoc.
  apply decide_ext. apply elem_of_unique.
Qed.

Lemma ordered_dict_last {V} (l1 l2 : list (string * V)) (k : string)
    (v : V) :
  k ∉ fst <$> l2 → (k, v) ∈ ordered_dict (l1 ++ (k, v) :: l2).
Proof.
  induction l2 as [|x l2 IH] using rev_ind; intros Hk.
  - rewrite ordered_dict_snoc. apply elem_of_dict_set_new.
  - rewrite fmap_app, not_elem_of_app in Hk. destruct Hk as [Hk Hx].
    replace (l1 ++ (k, v) :: l2 ++ [x]) with ((l1 ++ (k, v) :: l2) ++ [x])
      by (by rewrite <-app_assoc).
    rewrite ordered_dict_snoc. apply elem_of_dict_set_old; [|by apply IH].
    intros ->. apply Hx. by left.
Qed.

Lemma ordered_dict_sub {V} (l : list (string * V)) (k : string) (v : V) :
  (k, v) ∈ ordered_dict l → (k, v) ∈ l.
Proof.
  induction l as [|x l IH] using rev_ind; [done|].
  rewrite ordered_dict_snoc, elem_of_app.
  intros [[-> ->]|Hin]%elem_of_dict_set_inv.
  - right. destruct x. by left.
  - left. by apply IH.
Qed.

(** X8. The geometry dictionary has one entry for every shape identifier
    of the geometry source, in the order in which the identifiers first
    occur; when several features share an identifier, the entry holds the
    points of the last of them. *)
Theorem build_geometry_by_shape_last (pfeed : ProtoFeed)
    (features : list Feature) :
  pf_shapes pfeed = Some features →
  ∃ geometry_by_shape,
    build_geometry_by_shape pfeed = Ok geometry_by_shape ∧
    fst <$> geometry_by_shape = unique (ft_shape_id <$> features) ∧
    NoDup (fst <$> geometry_by_shape) ∧
    ∀ l1 f l2, features = l1 ++ f :: l2 →
      ft_shape_id f ∉ ft_shape_id <$> l2 →
      (ft_shape_id f, ft_coords f) ∈ geometry_by_shape.
Proof.
  intros Hshapes. unfold build_geometry_by_shape. rewrite Hshapes.
  cbn [not_None mbind Result_bind]. eexists. split; [done|].
  assert (Hkeys : fst <$> ordered_dict ((λ f, (ft_shape_id f, ft_coords f))
                                         <$> features)
                  = unique (ft_shape_id <$> features)).
  { by rewrite ordered_dict_keys, <-list_fmap_compose. }
  split; [done|]. split; [rewrite Hkeys; apply NoDup_unique|].
  intros l1 f l2 -> Hlast. rewrite fmap_app, fmap_cons.
  apply ordered_dict_last. by rewrite <-list_fmap_compose.
Qed.

(** X9. With a geometry source and the directions of the constructor,
    [build_shapes] raises no exception, and every row of the shapes table
    belongs to a path that is both a feature of the geometry source and
    named by the frequencies: its shape identifier is the path name with
    [-1] or [-0] when both directions are asked, and with the direction
    that is asked otherwise. *)
Theorem build_shapes_referenced (pfeed : ProtoFeed)
    (features : list Feature) (extra : gmap string Z) :
  pf_shapes pfeed = Some features →
  pf_shapes_extra pfeed = Some extra →
  ∃ rows,
    build_shapes pfeed = Ok rows ∧
    ∀ row, row ∈ rows →
      ∃ f direction,
        f ∈ features ∧
        extra !! ft_shape_id f = Some direction ∧
        sh_shape_id row
        ∈ (if decide (direction = 2)
           then [ft_shape_id f +:+ "-1"; ft_shape_id f +:+ "-0"]
           else [ft_shape_id f +:+ SEP +:+ str direction]).
Proof.
  intros Hshapes Hextra. unfold build_shapes, build_geometry_by_shape.
  rewrite Hshapes, Hextra. cbn [not_None mbind Result_bind].
  set (g := ordered_dict _).
  destruct (for_rows_total
              (λ '(shape, geom), build_shapes_of (Some extra) shape geom) g)
    as [rows Hrows].
  { intros [shape geom] _. unfold build_shapes_of.
    cbn [not_None mbind Result_bind].
    destruct (extra !! shape); [|by eexists].
    case_bool_decide; by eexists. }
  exists rows. split; [done|]. intros row Hrow.
  apply (for_rows_elem _ _ _ row Hrows) in Hrow
    as ([shape geom] & y & Hin & Hy & Hrow).
  apply ordered_dict_sub, list_elem_of_fmap in Hin as (f & [= -> ->] & Hf).
  unfold build_shapes_of in Hy. cbn [not_None mbind Result_bind] in Hy.
  destruct (extra !! ft_shape_id f) as [direction|] eqn:Hlook.
  - exists f, direction. split; [done|]. split; [done|].
    case_bool_decide as Htwo; injection Hy as <-.
    + rewrite decide_True by done.
      apply elem_of_app in Hrow as [Hrow|Hrow].
      * pose proof (shape_rows_ids (ft_shape_id f +:+ "-1") (ft_coords f))
          as Hids.
        rewrite Forall_forall in Hids. rewrite (Hids _ Hrow). by left.
      * pose proof (shape_rows_ids (ft_shape_id f +:+ "-0")
                      (reverse (ft_coords f))) as Hids.
        rewrite Forall_forall in Hids. rewrite (Hids _ Hrow).
        right. by left.
    + rewrite decide_False by done.
      pose proof (shape_rows_ids (ft_shape_id f +:+ SEP +:+ str direction)
                    (ft_coords f)) as Hids.
      rewrite Forall_forall in Hids. rewrite (Hids _ Hrow). by left.
  - injection Hy as <-. by apply elem_of_nil in Hrow.
Qed.

(** ** Stops near a shape *)

(** X10. [get_nearby_stops] returns candidate stops in their order, each
    intersecting the polygon it chose. With side [both] the polygon is the
    buffer and no exception is raised; with side [left] it is the first
    part of the split buffer, with any other side the second part, and
    [IndexError] is raised when the split has no such part. *)
Theorem get_nearby_stops_cases (geo_stops : list GeoStop)
    (linestring : LineString) (side : string) (buffer : Q) :
  let b := ls_buffer linestring buffer 2 in
  let polys := polygonize (difference b (ls_buffer linestring (1 # 2) 3)) in
  let within := λ p, filter (λ g, intersects (gs_geometry g) p = true)
                            geo_stops in
  get_nearby_stops geo_stops linestring side buffer
  = (if decide (side = "both") then Ok (within b)
     else if decide (side = "left")
          then match polys !! 0%nat with
               | Some p => Ok (within p)
               | None => Raise IndexError
               end
          else match polys !! 1%nat with
               | Some p => Ok (within p)
               | None => Raise IndexError
               end) ∧
  ∀ stops,
    get_nearby_stops geo_stops linestring side buffer = Ok stops →
    stops `sublist_of` geo_stops.
Proof.
  intros b polys within.
  assert (Heq : get_nearby_stops geo_stops linestring side buffer
    = (if decide (side = "both") then Ok (within b)
       else if decide (side = "left")
            then match polys !! 0%nat with
                 | Some p => Ok (within p)
                 | None => Raise IndexError
                 end
            else match polys !! 1%nat with
                 | Some p => Ok (within p)
                 | None => Raise IndexError
                 end)).
  { unfold get_nearby_stops. fold b. fold polys.
    destruct (decide (side = "both")) as [->|Hboth].
    - by rewrite bool_decide_false by (by intros ?).
    - rewrite bool_decide_true by done.
      destruct (decide (side = "left")) as [->|Hleft].
      + rewrite bool_decide_true by done. unfold index.
        by destruct (polys !! 0%nat).
      + rewrite bool_decide_false by done. unfold index.
        by destruct (polys !! 1%nat). }
  split; [done|]. intros stops. rewrite Heq.
  repeat case_decide; repeat case_match; intros [= <-];
    apply sublist_filter.
Qed.

(** ** The memo table of distances *)

Lemma measure_stops_inv (linestring : LineString) (shape : string)
    (g : list GeoStop) (cache cache' : gmap string (gmap string Q))
    (m : gmap string Q) (measured : list (Q * string)) :
  cache !! shape = Some m →
  measure_stops linestring shape g cache = Ok (cache', measured) →
  ∃ m',
    cache' = <[shape := m']> cache ∧ m ⊆ m' ∧
    Forall2 (λ gs x, x.2 = gs_stop_id gs ∧ m' !! gs_stop_id gs = Some x.1)
            g measured.
Proof.
  revert cache m measured.
  induction g as [|gs g IH]; intros cache m measured Hshape.
  - cbn. intros [= <- <-]. exists m. split; [by rewrite insert_id|].
    split; [done|constructor].
  - cbn [measure_stops]. unfold getitem. rewrite Hshape.
    cbn [mbind Result_bind].
    destruct (m !! gs_stop_id gs) as [d|] eqn:Hstop.
    + destruct (measure_stops linestring shape g cache)
        as [[c rest]|] eqn:Hrest; [|done].
      cbn. intros [= <- <-].
      destruct (IH _ _ _ Hshape Hrest) as (m' & -> & Hsub & Hall).
      exists m'. split; [done|]. split; [done|].
      constructor; [|done]. split; [done|].
      by eapply lookup_weaken.
    + set (d := (get_segment_length linestring (gs_geometry gs) / 1000)%Q)
        in *.
      destruct (measure_stops linestring shape g _)
        as [[c rest]|] eqn:Hrest; [|done].
      cbn. intros [= <- <-].
      eapply IH in Hrest as (m' & -> & Hsub & Hall);
        [|apply lookup_insert_eq].
      exists m'. split; [by rewrite insert_insert_eq|]. split.
      * etrans; [|done]. by apply insert_subseteq.
      * constructor; [|done]. split; [done|].
        eapply lookup_weaken; [|done]. apply lookup_insert_eq.
Qed.

Lemma measure_stops_hit (linestring : LineString) (shape : string)
    (g : list GeoStop) (cache : gmap string (gmap string Q))
    (m : gmap string Q) (measured : list (Q * string)) :
  cache !! shape = Some m →
  Forall2 (λ gs x, x.2 = gs_stop_id gs ∧ m !! gs_stop_id gs = Some x.1)
          g measured →
  measure_stops linestring shape g cache = Ok (cache, measured).
Proof.
  intros Hshape. induction 1 as [|gs [d stop] g measured [Hid Hd] _ IH];
    [done|].
  cbn [measure_stops]. unfold getitem. rewrite Hshape.
  cbn [mbind Result_bind]. cbn in Hid, Hd. rewrite Hd, IH. cbn.
  by rewrite Hid.
Qed.

(** X11. Measuring the stops of a shape whose memo table exists raises no
    exception, only adds distances to the memo table of that shape, and
    leaves the tables of other shapes alone; measuring the same stops
    again with the memo table obtained gives the same distances and the
    same table whatever the linestring, so no distance is computed a
    second time. *)
Theorem measure_stops_memo (linestring : LineString) (shape : string)
    (g : list GeoStop) (cache : gmap string (gmap string Q))
    (m : gmap string Q) :
  cache !! shape = Some m →
  ∃ cache' measured m',
    measure_stops linestring shape g cache = Ok (cache', measured) ∧
    cache' !! shape = Some m' ∧ m ⊆ m' ∧
    (∀ shape', shape' ≠ shape → cache' !! shape' = cache !! shape') ∧
    (∀ linestring',
       measure_stops linestring' shape g cache' = Ok (cache', measured)).
Proof.
  intros Hshape.
  destruct (measure_stops_Ok linestring shape g cache)
    as (cache' & measured & Hmeasure & _); [by eexists|].
  destruct (measure_stops_inv _ _ _ _ _ _ _ Hshape Hmeasure)
    as (m' & -> & Hsub & Hall).
  exists (<[shape := m']> cache), measured, m'.
  split; [done|]. split; [apply lookup_insert_eq|]. split; [done|]. split.
  - intros shape' Hne. by rewrite lookup_insert_ne.
  - intros linestring'. apply (measure_stops_hit _ _ _ _ m'); [|done].
    apply lookup_insert_eq.
Qed.

(** ** Stops and times of a trip *)

Lemma dists_times_stops (linestring : LineString)
    (measured : list (Q * string)) (t0 t1 : Q) (stops : list string)
    (dists times : list Q) :
  dists_times linestring measured t0 t1 = Ok (stops, dists, times) →
  stops = snd <$> sorted measured ∧ measured ≠ [].
Proof.
  unfold dists_times. intros Hdt. split.
  - destruct (sorted measured) as [|x l]; [done|].
    cbn [mbind Result_bind] in Hdt.
    destruct (if negb _ then _ else _) as [dists'|]; [|done].
    cbn [mbind Result_bind] in Hdt.
    destruct (index dists' 0) as [d0|]; [|done].
    cbn [mbind Result_bind] in Hdt.
    destruct (not_None (last dists')) as [d1|]; [|done].
    cbn [mbind Result_bind] in Hdt. by injection Hdt as <- _ _.
  - intros ->. done.
Qed.

Section Ends.
Local Open Scope Q_scope.

Lemma np_interp_right (d0 d1 t0 t1 : Q) :
  d0 <= d1 → np_interp d1 d0 d1 t0 t1 = t1.
Proof.
  intros Hd. unfold np_interp.
  destruct (Qlt_le_dec d1 d1) as [?|_]; [done|].
  destruct (Qlt_le_dec d1 d0) as [?|_]; [lra|].
  destruct (Qle_bool d1 d1) eqn:Hb; [done|].
  assert (d1 <= d1) as Hle%Qle_bool_iff by lra. congruence.
Qed.

Lemma np_interp_left (d0 d1 t0 t1 : Q) :
  d0 < d1 → np_interp d0 d0 d1 t0 t1 = t0.
Proof.
  intros Hd. unfold np_interp.
  destruct (Qlt_le_dec d1 d0) as [?|_]; [lra|].
  destruct (Qlt_le_dec d0 d0) as [?|_]; [done|].
  destruct (Qle_bool d1 d0) eqn:Hb.
  { apply Qle_bool_iff in Hb. lra. }
  destruct (Qeq_bool d0 d0) eqn:Hb0; [done|].
  assert (d0 == d0) as Heq%Qeq_bool_iff by lra. congruence.
Qed.

Lemma np_interp_flat (x d0 d1 t0 t1 : Q) :
  d0 == d1 → d0 <= x → x <= d1 → np_interp x d0 d1 t0 t1 = t1.
Proof.
  intros Hd Hx0 Hx1. unfold np_interp.
  destruct (Qlt_le_dec d1 x) as [?|_]; [done|].
  destruct (Qlt_le_dec x d0) as [?|_]; [lra|].
  destruct (Qle_bool d1 x) eqn:Hb; [done|].
  assert (d1 <= x) as Hle%Qle_bool_iff by lra. congruence.
Qed.

Lemma Sorted_between (l : list Q) (a b : Q) :
  Sorted Qle l → head l = Some a → last l = Some b →
  Forall (λ x, a <= x <= b) l.
Proof.
  intros Hsorted. apply (@Sorted_StronglySorted _ Qle Qle_trans) in Hsorted.
  revert a b. induction Hsorted as [|x l Hl IH Hx]; intros a b Ha Hb;
    [constructor|].
  injection Ha as <-. destruct l as [|y l].
  - injection Hb as <-. constructor; [lra|constructor].
  - rewrite last_cons_cons in Hb.
    specialize (IH y b eq_refl Hb).
    assert (Hxb : x <= b).
    { rewrite Forall_forall in Hx. apply Hx.
      apply list_elem_of_lookup. exists (Nat.pred (length (y :: l))).
      by rewrite <-last_lookup. }
    constructor; [lra|].
    eapply Forall_impl; [exact IH|]. cbn. intros z [Hz1 Hz2].
    split; [|done]. apply Forall_inv in Hx. lra.
Qed.

End Ends.

(** X12. When [compute_stops_dists_times] returns for a trip, the stops
    it returns are the stops given, each once, in another order; every
    time lies between the start and the end time of the trip; the last
    stop has the end time; the first stop has the start time when the
    first distance is below the last, and every stop, a single one
    included, has the end time when all distances are the same. *)
Theorem compute_stops_dists_times_ends (geo_stops : list GeoStop)
    (linestring : LineString) (shape : string) (t0 t1 : Q)
    (cache cache' : gmap string (gmap string Q))
    (stops : list string) (dists times : list Q) :
  compute_stops_dists_times geo_stops linestring shape t0 t1 cache
  = Ok (cache', (stops, dists, times)) →
  (0 <= ls_length linestring)%Q →
  (t0 <= t1)%Q →
  stops ≡ₚ gs_stop_id <$> geo_stops ∧
  Forall (λ t, (t0 <= t <= t1)%Q) times ∧
  last times = Some t1 ∧
  ∃ d0 d1,
    head dists = Some d0 ∧ last dists = Some d1 ∧
    ((d0 < d1)%Q → head times = Some t0) ∧
    ((d0 == d1)%Q → Forall (λ t, t = t1) times).
Proof.
  intros Hcompute Hlength Ht.
  pose proof (compute_stops_dists_times_Ok _ _ _ _ _ _ _ _ _ _
                Hcompute Hlength) as (Hstops & Hdists & -> & Hsorted).
  unfold compute_stops_dists_times in Hcompute.
  destruct (measure_stops linestring shape geo_stops cache)
    as [[c measured]|] eqn:Hmeasure; [|done].
  cbn [mbind Result_bind] in Hcompute.
  destruct (dists_times linestring measured t0 t1)
    as [[[stops' dists'] times']|] eqn:Hdt; [|done].
  cbn [mbind Result_bind] in Hcompute.
  injection Hcompute as -> -> -> _.
  apply dists_times_stops in Hdt as [-> Hne].
  apply measure_stops_ids in Hmeasure.
  destruct dists as [|d0 dists'].
  { exfalso. apply Hne. destruct measured; [done|].
    apply (f_equal length) in Hmeasure.
    rewrite !length_fmap in Hmeasure. cbn in Hmeasure, Hdists. lia. }
  destruct (last (d0 :: dists')) as [d1|] eqn:Hlast;
    [|by apply last_None in Hlast].
  pose proof (Sorted_between _ d0 d1 Hsorted eq_refl Hlast) as Hbetween.
  assert (Hd : (d0 <= d1)%Q).
  { apply Forall_inv in Hbetween. lra. }
  split; [|split; [|split]].
  - by rewrite sorted_Permutation, Hmeasure.
  - unfold interp_times. apply Forall_fmap, Forall_forall. intros x _.
    cbn. apply np_interp_bounds; [|done].
    cbn [head default]. by rewrite Hlast.
  - unfold interp_times. rewrite fmap_last, Hlast. cbn [head default fmap
      option_fmap option_map]. by rewrite np_interp_right.
  - exists d0, d1. split; [done|]. split; [done|]. split.
    + intros Hlt. unfold interp_times. rewrite Hlast.
      cbn [head default fmap list_fmap]. by rewrite np_interp_left.
    + intros Heq. unfold interp_times. rewrite Hlast.
      cbn [head default]. apply Forall_fmap.
      eapply Forall_impl; [exact Hbetween|].
      intros x [Hx0 Hx1]. cbn. by apply np_interp_flat.
Qed.

(** ** Stop times refer to trips and stops of the feed *)

Lemma mapM_Ok_elem {A B} (f : A → Result B) (l : list A) (ys : list B)
    (y : B) :
  mapM f l = Ok ys → y ∈ ys → ∃ x, x ∈ l ∧ f x = Ok y.
Proof.
  revert ys. induction l as [|x l IH]; intros ys; cbn [mapM].
  - intros [= <-] ?%elem_of_nil. done.
  - destruct (f x) as [y0|] eqn:Hx; [|done]. cbn [mbind Result_bind].
    destruct (mapM f l) as [ys'|]; [|done]. cbn [mbind Result_bind].
    intros [= <-] [->|Hy]%elem_of_cons.
    + exists x. split; [by left|done].
    + destruct (IH ys' eq_refl Hy) as (x' & Hx' & Hfx').
      exists x'. split; [by right|done].
Qed.

Lemma for_rows_st_elem {A B S} (f : A → S → Result (S * list B))
    (l : list A) (st st' : S) (ys : list B) (z : B) :
  for_rows_st f l st = Ok (st', ys) → z ∈ ys →
  ∃ x s s' y, x ∈ l ∧ f x s = Ok (s', y) ∧ z ∈ y.
Proof.
  revert st ys. induction l as [|x l IH]; intros st ys; cbn [for_rows_st].
  - intros [= <- <-] ?%elem_of_nil. done.
  - destruct (f x st) as [[s1 y]|] eqn:Hx; [|done]. cbn [mbind Result_bind].
    destruct (for_rows_st f l s1) as [[s2 ys']|] eqn:Hrest; [|done].
    cbn [mbind Result_bind]. intros [= <- <-] [Hz|Hz]%elem_of_app.
    + exists x, st, s1, y. split; [by left|done].
    + destruct (IH _ _ Hrest Hz) as (x' & s & s' & y' & Hx' & Hy' & Hz').
      exists x', s, s', y'. split; [by right|done].
Qed.

Lemma merge_trips_elem (routes : list RouteRow) (freq : Frequencies)
    (trips : list TripRow) (merged : list TripDetail) (tr : TripRow)
    (w : string) (rt : RouteRow) (fq : FrequencyRow) :
  merge_trips routes freq trips = Ok merged →
  ((tr, w), (rt, fq)) ∈ merged →
  tr ∈ trips ∧ rt ∈ routes ∧ fq ∈ fq_rows freq.
Proof.
  unfold merge_trips.
  destruct (mapM _ trips) as [trips'|] eqn:Htrips; [|done].
  cbn [mbind Result_bind]. intros [= <-] Hin.
  apply elem_of_merge in Hin as (Htr & Hright & _).
  apply elem_of_merge in Hright as (Hrt & Hfq & _).
  destruct (mapM_Ok_elem _ _ _ _ Htrips Htr) as (t & Ht & Heq).
  destruct (split SEP (tr_trip_id t)) as [parts|]; [|done].
  cbn [mbind Result_bind] in Heq.
  destruct (index parts 2); [|done].
  cbn [mbind Result_bind] in Heq. by injection Heq as <- _.
Qed.

Lemma stop_time_rows_elem (trip : string) (stops : list string)
    (times dists : list Q) (st : StopTimeRow Q) :
  st ∈ stop_time_rows trip stops times dists →
  st_trip_id st = trip ∧ st_stop_id st ∈ stops.
Proof.
  intros (j & Hj)%list_elem_of_lookup. unfold stop_time_rows in Hj.
  rewrite list_lookup_imap in Hj.
  apply fmap_Some in Hj as ([[stop time] dist] & Hzip & ->).
  split; [done|]. cbn.
  apply list_elem_of_lookup_2, elem_of_zip_l, elem_of_zip_l in Hzip. done.
Qed.

Lemma endpoint_stop_times_elem (has_speed : bool)
    (geometry_by_shape : gmap string LineString) (tr : TripRow)
    (w : string) (rt : RouteRow) (fq : FrequencyRow)
    (rows : list (StopTimeRow Q)) (st : StopTimeRow Q) :
  endpoint_stop_times has_speed geometry_by_shape ((tr, w), (rt, fq))
  = Ok rows →
  st ∈ rows →
  st_trip_id st = tr_trip_id tr ∧
  st_stop_id st ∈ build_stop_ids (tr_shape_id tr) ∧
  is_Some (geometry_by_shape !! tr_shape_id tr).
Proof.
  unfold endpoint_stop_times, getitem.
  destruct (geometry_by_shape !! tr_shape_id tr) as [geom|]; [|done].
  cbn [mbind Result_bind].
  destruct (trip_duration _ _ _); [|done]. cbn [mbind Result_bind].
  case_bool_decide; [by intros [= <-] ?%elem_of_nil|].
  destruct (trip_times _ _ _) as [[t0 t1]|]; [|done].
  cbn [mbind Result_bind].
  unfold build_stop_ids. change (range 2) with [0%nat; 1%nat].
  cbn [fmap list_fmap index lookup list_lookup mbind Result_bind].
  intros [= <-] Hst. split; [|split; [|by eexists]].
  - apply elem_of_cons in Hst as [->|Hst]; [done|].
    by apply list_elem_of_singleton in Hst as ->.
  - apply elem_of_cons in Hst as [->|Hst]; [by left|].
    apply list_elem_of_singleton in Hst as ->. right. by left.
Qed.

Lemma compute_stops_Permutation (geo_stops : list GeoStop)
    (linestring : LineString) (shape : string) (t0 t1 : Q)
    (cache cache' : gmap string (gmap string Q))
    (stops : list string) (dists times : list Q) :
  compute_stops_dists_times geo_stops linestring shape t0 t1 cache
  = Ok (cache', (stops, dists, times)) →
  stops ≡ₚ gs_stop_id <$> geo_stops.
Proof.
  unfold compute_stops_dists_times.
  destruct (measure_stops linestring shape geo_stops cache)
    as [[c measured]|] eqn:Hmeasure; [|done].
  cbn [mbind Result_bind].
  destruct (dists_times linestring measured t0 t1)
    as [[[stops' dists'] times']|] eqn:Hdt; [|done].
  cbn [mbind Result_bind]. intros [= _ -> _ _].
  apply dists_times_stops in Hdt as [-> _].
  apply measure_stops_ids in Hmeasure.
  by rewrite sorted_Permutation, Hmeasure.
Qed.

Lemma nearby_stop_times_elem (has_speed : bool)
    (geometry_by_shape : gmap string LineString) (geo_stops : list GeoStop)
    (side : string) (buffer : Q) (tr : TripRow) (w : string)
    (rt : RouteRow) (fq : FrequencyRow)
    (cache cache' : gmap string (gmap string Q))
    (rows : list (StopTimeRow Q)) (st : StopTimeRow Q) :
  nearby_stop_times has_speed geometry_by_shape geo_stops side buffer
    ((tr, w), (rt, fq)) cache = Ok (cache', rows) →
  st ∈ rows →
  st_trip_id st = tr_trip_id tr ∧
  st_stop_id st ∈ gs_stop_id <$> geo_stops.
Proof.
  unfold nearby_stop_times, getitem.
  destruct (geometry_by_shape !! tr_shape_id tr) as [geom|]; [|done].
  cbn [mbind Result_bind].
  destruct (get_nearby_stops geo_stops geom side buffer)
    as [nearby|] eqn:Hnearby; [|done].
  cbn [mbind Result_bind].
  destruct (trip_duration _ _ _); [|done]. cbn [mbind Result_bind].
  case_bool_decide; [by intros [= _ <-] ?%elem_of_nil|].
  destruct (trip_times _ _ _) as [[t0 t1]|]; [|done].
  cbn [mbind Result_bind].
  destruct (compute_stops_dists_times _ _ _ _ _ _)
    as [[c [[ids dists] times]]|] eqn:Hcompute; [|done].
  cbn [mbind Result_bind]. intros [= _ <-] Hst.
  apply stop_time_rows_elem in Hst as [Htrip Hstop]. split; [done|].
  apply compute_stops_Permutation in Hcompute. rewrite Hcompute in Hstop.
  apply list_elem_of_fmap in Hstop as (gs & -> & Hgs).
  apply list_elem_of_fmap_2.
  unfold get_nearby_stops in Hnearby.
  destruct (if bool_decide (side ≠ "both") then _ else _) as [b|];
    [|done].
  cbn [mbind Result_bind] in Hnearby. injection Hnearby as <-.
  by apply list_elem_of_filter in Hgs as [_ ?].
Qed.

(** X13. Every row of the stop-time table that [build_stop_times] returns
    carries the identifier of a trip of the trips table it was given. *)
Theorem build_stop_times_trip_ids (σ : gmap nat Frequencies)
    (pfeed : ProtoFeed) (route_table : list RouteRow)
    (shape_table : list ShapeRow) (trip_table : list TripRow) (buffer : Q)
    (stop_time_table : list (StopTimeRow string)) :
  build_stop_times σ pfeed route_table shape_table trip_table buffer
  = Ok stop_time_table →
  ∀ st, st ∈ stop_time_table →
    st_trip_id st ∈ tr_trip_id <$> trip_table.
Proof.
  unfold build_stop_times.
  destruct (stop_time_seconds _ _ _ _ _ _) as [g|] eqn:Hg; [|done].
  cbn [mbind Result_bind]. intros [= <-] st Hst.
  apply list_elem_of_fmap in Hst as (st' & -> & Hst'). cbn [render_times
    st_trip_id].
  unfold stop_time_seconds in Hg.
  destruct (deref σ (pf_frequencies pfeed)) as [freq|]; [|done].
  cbn [mbind Result_bind] in Hg.
  destruct (merge_trips route_table freq trip_table)
    as [merged|] eqn:Hmerged; [|done].
  cbn [mbind Result_bind] in Hg.
  destruct (pf_stops pfeed) as [stops|].
  - destruct (not_None (pf_meta pfeed)) as [meta|]; [|done].
    cbn [mbind Result_bind] in Hg.
    destruct (index meta 0) as [m|]; [|done].
    cbn [mbind Result_bind] in Hg.
    destruct (getitem traffic_by_timezone _) as [side|]; [|done].
    cbn [mbind Result_bind] in Hg.
    destruct (for_rows_st _ merged _) as [[c rows]|] eqn:Hrows; [|done].
    cbn in Hg. injection Hg as <-.
    destruct (for_rows_st_elem _ _ _ _ _ _ Hrows Hst')
      as ([[tr w] [rt fq]] & s & s' & y & Hrow & Hy & Hin).
    apply (nearby_stop_times_elem _ _ _ _ _ _ _ _ _ _ _ _ _ Hy)
      in Hin as [-> _].
    apply (merge_trips_elem _ _ _ _ _ _ _ _ Hmerged) in Hrow as [Htr _].
    by apply list_elem_of_fmap_2.
  - apply (for_rows_elem _ _ _ st' Hg) in Hst'
      as ([[tr w] [rt fq]] & y & Hrow & Hy & Hin).
    apply (endpoint_stop_times_elem _ _ _ _ _ _ _ _ Hy) in Hin as [-> _].
    apply (merge_trips_elem _ _ _ _ _ _ _ _ Hmerged) in Hrow as [Htr _].
    by apply list_elem_of_fmap_2.
Qed.

Lemma dict_lookup_Some {V} (items : list (string * V)) (k : string)
    (v : V) :
  dict items !! k = Some v → (k, v) ∈ items.
Proof.
  unfold dict.
  cut (∀ m : gmap string V,
         foldl (λ d kv, <[kv.1 := kv.2]> d) m items !! k = Some v →
         (k, v) ∈ items ∨ m !! k = Some v).
  { intros Hcut Hlook. by destruct (Hcut ∅ Hlook) as [?|?]. }
  induction items as [|[k' v'] items IH]; intros m; cbn [foldl fst snd].
  - by right.
  - intros [Hin|Hlook]%IH; [left; by right|].
    destruct (decide (k' = k)) as [->|Hne].
    + rewrite lookup_insert_eq in Hlook. injection Hlook as ->.
      left. by left.
    + rewrite lookup_insert_ne in Hlook by done. by right.
Qed.

(** X14. In a feed that [build_feed] returns, every stop identifier of
    the stop-time table is the identifier of a stop of the stop table,
    provided the collaborators keep identifiers: [geometrize_shapes]
    gives the same shape identifiers with and without projection, and
    [geometrize_stops] gives no stop identifier of its own. *)
Theorem build_feed_stop_ids (σ : gmap nat Frequencies) (pfeed : ProtoFeed)
    (buffer : Q) (feed : Feed) :
  (∀ shapes, fst <$> geometrize_shapes true shapes
             ⊆ fst <$> geometrize_shapes false shapes) →
  (∀ stops, gs_stop_id <$> geometrize_stops stops ⊆ stop_id <$> stops) →
  build_feed σ pfeed buffer = Ok feed →
  ∀ st, st ∈ stop_times feed → st_stop_id st ∈ stop_id <$> stops feed.
Proof.
  intros Hshape_ids Hstop_ids. unfold build_feed.
  destruct (build_agency pfeed); [|done]. cbn [mbind Result_bind].
  destruct (build_calendar_etc pfeed) as [[calendar_table sbw]|]; [|done].
  cbn [mbind Result_bind].
  destruct (build_routes σ pfeed) as [route_table|]; [|done].
  cbn [mbind Result_bind].
  destruct (build_shapes pfeed) as [shape_table|]; [|done].
  cbn [mbind Result_bind].
  destruct (build_stops pfeed (Some shape_table))
    as [stop_table|] eqn:Hstops; [|done].
  cbn [mbind Result_bind].
  destruct (build_trips σ pfeed route_table sbw) as [trip_table|]; [|done].
  cbn [mbind Result_bind].
  destruct (build_stop_times σ pfeed route_table shape_table trip_table
              buffer) as [stop_time_table|] eqn:Htimes; [|done].
  cbn [mbind Result_bind]. intros [= <-] st Hst. cbn [stop_times stops] in *.
  assert (Hin : st_stop_id st ∈ stop_id <$> stop_table).
  { unfold build_stop_times in Htimes.
    destruct (stop_time_seconds _ _ _ _ _ _) as [g|] eqn:Hg; [|done].
    cbn [mbind Result_bind] in Htimes. injection Htimes as <-.
    apply list_elem_of_fmap in Hst as (st' & -> & Hst').
    cbn [render_times st_stop_id].
    unfold stop_time_seconds in Hg.
    destruct (deref σ (pf_frequencies pfeed)) as [freq|]; [|done].
    cbn [mbind Result_bind] in Hg.
    destruct (merge_trips route_table freq trip_table)
      as [merged|]; [|done].
    cbn [mbind Result_bind] in Hg. unfold build_stops in Hstops.
    destruct (pf_stops pfeed) as [registry|].
    - injection Hstops as <-.
      destruct (not_None (pf_meta pfeed)) as [meta|]; [|done].
      cbn [mbind Result_bind] in Hg.
      destruct (index meta 0) as [m|]; [|done].
      cbn [mbind Result_bind] in Hg.
      destruct (getitem traffic_by_timezone _) as [side|]; [|done].
      cbn [mbind Result_bind] in Hg.
      destruct (for_rows_st _ merged _) as [[c rows]|] eqn:Hrows; [|done].
      cbn in Hg. injection Hg as <-.
      destruct (for_rows_st_elem _ _ _ _ _ _ Hrows Hst')
        as ([[tr w] [rt fq]] & s & s' & y & Hrow & Hy & Hin).
      apply (nearby_stop_times_elem _ _ _ _ _ _ _ _ _ _ _ _ _ Hy)
        in Hin as [_ Hin].
      by apply Hstop_ids.
    - apply (for_rows_elem _ _ _ st' Hg) in Hst'
        as ([[tr w] [rt fq]] & y & Hrow & Hy & Hin).
      apply (endpoint_stop_times_elem _ _ _ _ _ _ _ _ Hy) in Hin
        as (_ & Hid & [geom Hgeom]).
      apply dict_lookup_Some, (list_elem_of_fmap_2 fst), Hshape_ids,
        list_elem_of_fmap in Hgeom as ([shape ls] & Hshape & Hgeo).
      cbn in Hshape.
      cbn in Hshape. rewrite Hshape in Hid.
      pose proof (build_stops_of_endpoints shape ls) as Hends.
      unfold build_stop_ids in Hid.
      change (range 2) with [0%nat; 1%nat] in Hid.
      cbn [fmap list_fmap] in Hid.
      apply elem_of_cons in Hid as [Hid|Hid%list_elem_of_singleton];
        rewrite Hid;
        eapply (list_elem_of_fmap_2' stop_id);
        [eapply (for_rows_elem _ _ _ _ Hstops); eexists (shape, ls), _;
         split; [done|]; split; [exact Hends|]; by left
        |done
        |eapply (for_rows_elem _ _ _ _ Hstops); eexists (shape, ls), _;
         split; [done|]; split; [exact Hends|]; right; by left
        |done]. }
  apply list_elem_of_fmap in Hin as (x & Hid & Hx).
  apply list_elem_of_fmap. exists x. split; [done|].
  unfold stops_in_stop_times. apply list_elem_of_filter. split; [|done].
  rewrite <-Hid. by apply list_elem_of_fmap_2.
Qed.

(** ** The constructor *)

Lemma mapM_fmap_ext {A B C} (f : B → Result C) (h1 h2 : A → B)
    (l : list A) :
  (∀ x, f (h1 x) = f (h2 x)) → mapM f (h1 <$> l) = mapM f (h2 <$> l).
Proof.
  intros Hext. induction l as [|x l IH]; [done|].
  csimpl. rewrite Hext. destruct (f (h2 x)); [|done].
  cbn [mbind Result_bind]. f_equal. exact IH.
Qed.

Lemma directions_filter_fmap (g : FrequencyRow → FrequencyRow)
    (rows : list FrequencyRow) (k : string) :
  (∀ r, fq_shape_id (g r) = fq_shape_id r) →
  (∀ r, fq_direction (g r) = fq_direction r) →
  fq_direction <$> filter (λ r, fq_shape_id r = k) (g <$> rows)
  = fq_direction <$> filter (λ r, fq_shape_id r = k) rows.
Proof.
  intros Hshape Hdir. induction rows as [|r rows IH]; [done|].
  csimpl. rewrite !filter_cons, Hshape.
  case_decide; csimpl; by rewrite ?Hdir, IH.
Qed.

Lemma build_shapes_extra_map (g : FrequencyRow → FrequencyRow) (col : bool)
    (freq : Frequencies) :
  (∀ r, fq_shape_id (g r) = fq_shape_id r) →
  (∀ r, fq_direction (g r) = fq_direction r) →
  build_shapes_extra {| has_speed := col; fq_rows := g <$> fq_rows freq |}
  = build_shapes_extra freq.
Proof.
  intros Hshape Hdir. unfold build_shapes_extra, groupby_shape_id.
  cbn [fq_rows]. rewrite <-list_fmap_compose.
  rewrite (list_fmap_ext (fq_shape_id ∘ g) fq_shape_id (fq_rows freq))
    by (intros; apply Hshape).
  f_equal. apply mapM_fmap_ext. intros k. unfold my_agg.
  by rewrite directions_filter_fmap.
Qed.

Lemma cleaned_shapes_extra (default : option Q) (freq : Frequencies) :
  build_shapes_extra (fill_speed default (add_speed (fill_route_type freq)))
  = build_shapes_extra freq.
Proof.
  unfold fill_speed. rewrite build_shapes_extra_map by done.
  unfold add_speed.
  destruct (has_speed (fill_route_type freq));
    [|rewrite build_shapes_extra_map by done];
    unfold fill_route_type; by rewrite build_shapes_extra_map.
Qed.

Lemma cleaned_again (default : option Q) (freq : Frequencies) :
  let cleaned := fill_speed default (add_speed (fill_route_type freq)) in
  fill_speed default (add_speed (fill_route_type cleaned)) = cleaned.
Proof.
  unfold fill_speed, add_speed, fill_route_type. cbn [has_speed fq_rows].
  destruct (has_speed freq); cbn [has_speed fq_rows]; f_equal;
    rewrite <-!list_fmap_compose; apply list_fmap_ext; intros i r _;
    unfold map_speed; cbn;
    destruct (fq_route_type r), (fq_speed r), default; done.
Qed.

Lemma ProtoFeed_init_Some (σ : gmap nat Frequencies) (l : nat)
    (freq : Frequencies) (m : Meta) (rest : list Meta)
    (service_windows : option (list ServiceWindow))
    (shapes : option (list Feature)) (stops : option (list Stop))
    (extra : gmap string Z) :
  σ !! l = Some freq →
  build_shapes_extra freq = Ok extra →
  ProtoFeed_init σ (Some l) (Some (m :: rest)) service_windows shapes stops
  = Ok (<[l := fill_speed (default_route_speed m)
                  (add_speed (fill_route_type freq))]> σ,
        {| pf_frequencies := Some l; pf_meta := Some (m :: rest);
           pf_service_windows := service_windows; pf_shapes := shapes;
           pf_stops := stops; pf_shapes_extra := Some extra |}).
Proof.
  intros Hl Hextra. unfold ProtoFeed_init. rewrite Hl.
  cbn [not_None mbind Result_bind index lookup list_lookup].
  repeat (rewrite lookup_insert_eq; cbn [not_None mbind Result_bind]).
  rewrite !insert_insert_eq, cleaned_shapes_extra, Hextra. done.
Qed.

(** X15. The direction registry that the constructor stores is the one of
    the table as the caller passed it: cleaning the table does not change
    it. It gives every shape identifier of the table the one direction
    its rows ask, or 2 when they ask several, and has no other key. *)
Theorem ProtoFeed_init_shapes_extra (σ : gmap nat Frequencies) (l : nat)
    (freq : Frequencies) (m : Meta) (rest : list Meta)
    (service_windows : option (list ServiceWindow))
    (shapes : option (list Feature)) (stops : option (list Stop)) :
  σ !! l = Some freq →
  ∃ σ' pfeed extra,
    ProtoFeed_init σ (Some l) (Some (m :: rest)) service_windows shapes stops
    = Ok (σ', pfeed) ∧
    pf_shapes_extra pfeed = Some extra ∧
    build_shapes_extra freq = Ok extra ∧
    ∀ shape, extra !! shape = match directions_asked freq shape with
                              | [] => None
                              | [d] => Some d
                              | _ => Some 2
                              end.
Proof.
  intros Hl.
  destruct (build_shapes_extra_lookup freq "") as (extra & Hextra & _).
  eexists _, _, extra. split; [by apply ProtoFeed_init_Some|].
  split; [done|]. split; [done|]. intros shape.
  destruct (build_shapes_extra_lookup freq shape)
    as (extra' & Hextra' & Hlookup).
  rewrite Hextra in Hextra'. by injection Hextra' as <-.
Qed.

(** X16. Constructing a ProtoFeed a second time from the same reference
    and the same other tables changes nothing: the table at the reference
    is already clean, the store stays as the first construction left it
    and the second ProtoFeed equals the first. *)
Theorem ProtoFeed_init_twice (σ : gmap nat Frequencies) (l : nat)
    (freq : Frequencies) (m : Meta) (rest : list Meta)
    (service_windows : option (list ServiceWindow))
    (shapes : option (list Feature)) (stops : option (list Stop)) :
  σ !! l = Some freq →
  ∃ σ' pfeed,
    ProtoFeed_init σ (Some l) (Some (m :: rest)) service_windows shapes stops
    = Ok (σ', pfeed) ∧
    ProtoFeed_init σ' (Some l) (Some (m :: rest)) service_windows shapes
      stops
    = Ok (σ', pfeed).
Proof.
  intros Hl.
  destruct (build_shapes_extra_lookup freq "") as (extra & Hextra & _).
  eexists _, _. split; [by apply ProtoFeed_init_Some|].
  erewrite ProtoFeed_init_Some.
  - by rewrite cleaned_again, insert_insert_eq.
  - apply lookup_insert_eq.
  - by rewrite cleaned_shapes_extra.
Qed.

Lemma ordered_dict_cons {V} (kv : string * V) (items : list (string * V)) :
  ordered_dict (kv :: items) ≠ [].
Proof.
  intros Hnil. pose proof (ordered_dict_keys (kv :: items)) as Hkeys.
  rewrite Hnil in Hkeys.
  assert (Hin : kv.1 ∈ unique (fst <$> kv :: items))
    by (apply elem_of_unique; by left).
  rewrite <-Hkeys in Hin. by apply elem_of_nil in Hin.
Qed.

(** X17. A ProtoFeed constructed without a frequencies table leaves the
    store alone and has no direction registry; [build_shapes] then
    returns the empty table when there is no feature and raises TypeError
    as soon as there is one. With a frequencies table, a missing meta
    table makes the constructor raise TypeError and an empty one
    IndexError. *)
Theorem ProtoFeed_init_missing_tables (σ : gmap nat Frequencies) (l : nat)
    (freq : Frequencies) (meta : option (list Meta))
    (service_windows : option (list ServiceWindow))
    (features : list Feature) (stops : option (list Stop)) :
  σ !! l = Some freq →
  (∃ pfeed,
     ProtoFeed_init σ None meta service_windows (Some features) stops
     = Ok (σ, pfeed) ∧
     pf_shapes_extra pfeed = None ∧
     build_shapes pfeed = match features with
                          | [] => Ok []
                          | _ :: _ => Raise TypeError
                          end) ∧
  ProtoFeed_init σ (Some l) None service_windows (Some features) stops
  = Raise TypeError ∧
  ProtoFeed_init σ (Some l) (Some []) service_windows (Some features) stops
  = Raise IndexError.
Proof.
  intros Hl. split; [|split].
  - eexists. split; [done|]. split; [done|].
    unfold build_shapes, build_geometry_by_shape.
    cbn [pf_shapes pf_shapes_extra not_None mbind Result_bind].
    destruct features as [|f features]; [done|]. cbn [fmap list_fmap].
    pose proof (ordered_dict_cons (ft_shape_id f, ft_coords f)
                  ((λ f, (ft_shape_id f, ft_coords f)) <$> features))
      as Hne.
    by destruct (ordered_dict _) as [|[shape geom] g].
  - unfold ProtoFeed_init. rewrite Hl.
    cbn [not_None mbind Result_bind].
    by repeat (rewrite lookup_insert_eq; cbn [not_None mbind Result_bind]).
  - unfold ProtoFeed_init. rewrite Hl.
    cbn [not_None mbind Result_bind].
    by repeat (rewrite lookup_insert_eq; cbn [not_None mbind Result_bind]).
Qed.

(** ** Routes *)

Lemma NoDup_fmap_eq {A B} (g : A → B) (l : list A) (x y : A) :
  NoDup (g <$> l) → x ∈ l → y ∈ l → g x = g y → x = y.
Proof.
  induction l as [|a l IH]; [by intros _ ?%elem_of_nil|].
  csimpl. intros [Hnotin Hnodup]%NoDup_cons
    [->|Hx]%elem_of_cons [->|Hy]%elem_of_cons Heq.
  - done.
  - destruct Hnotin. rewrite Heq. by apply list_elem_of_fmap_2.
  - destruct Hnotin. rewrite <-Heq. by apply list_elem_of_fmap_2.
  - by apply IH.
Qed.

(** X18. [build_routes] gives every frequency row a route that carries
    its short name, long name and type under the identifier [r] followed
    by the short name, and gives no other route. The route identifiers
    are distinct when rows of one short name agree on long name, type and
    shape; two rows that differ in the shape only give the same route row
    twice. *)
Theorem build_routes_rows (σ : gmap nat Frequencies) (pfeed : ProtoFeed)
    (freq : Frequencies) :
  deref σ (pf_frequencies pfeed) = Ok freq →
  let route_of := λ fq,
    {| rt_route_short_name := fq_route_short_name fq;
       rt_route_long_name := fq_route_long_name fq;
       rt_route_type := fq_route_type fq;
       rt_route_id := "r" +:+ fq_route_short_name fq |} in
  ∃ route_table,
    build_routes σ pfeed = Ok route_table ∧
    (∀ rt, rt ∈ route_table ↔ ∃ fq, fq ∈ fq_rows freq ∧ rt = route_of fq) ∧
    ((∀ fq fq', fq ∈ fq_rows freq → fq' ∈ fq_rows freq →
        fq_route_short_name fq = fq_route_short_name fq' →
        fq_route_long_name fq = fq_route_long_name fq' ∧
        fq_route_type fq = fq_route_type fq' ∧
        fq_shape_id fq = fq_shape_id fq') →
     NoDup (rt_route_id <$> route_table)) ∧
    (∀ fq fq', fq ∈ fq_rows freq → fq' ∈ fq_rows freq →
       route_of fq = route_of fq' → fq_shape_id fq ≠ fq_shape_id fq' →
       ¬ NoDup route_table).
Proof.
  intros Hfreq route_of. unfold build_routes. rewrite Hfreq.
  cbn [mbind Result_bind]. eexists. split; [done|].
  set (key := λ r : FrequencyRow,
         (fq_route_short_name r, fq_route_long_name r, fq_route_type r,
          fq_shape_id r)).
  set (row := λ '(short_name, long_name, type, _),
         {| rt_route_short_name := short_name;
            rt_route_long_name := long_name;
            rt_route_type := type;
            rt_route_id := "r" +:+ short_name |}).
  assert (Hrow : ∀ fq, row (key fq) = route_of fq) by done.
  split; [|split].
  - intros rt. rewrite list_elem_of_fmap. split.
    + intros (k & -> & (fq & -> & Hfq)%elem_of_unique%list_elem_of_fmap).
      by exists fq.
    + intros (fq & Hfq & ->). exists (key fq). split; [done|].
      by apply elem_of_unique, list_elem_of_fmap_2.
  - intros Hdep. rewrite <-list_fmap_compose.
    apply NoDup_fmap_2_strong; [|apply NoDup_unique].
    intros k k' (fq & -> & Hfq)%elem_of_unique%list_elem_of_fmap
      (fq' & -> & Hfq')%elem_of_unique%list_elem_of_fmap Heq.
    cbn in Heq. apply (inj (String.app "r")) in Heq.
    destruct (Hdep fq fq' Hfq Hfq' Heq) as (Hlong & Htype & Hshape).
    unfold key. by rewrite Heq, Hlong, Htype, Hshape.
  - intros fq fq' Hfq Hfq' Heq Hshape Hnodup. apply Hshape.
    assert (Hkey : key fq = key fq'); [|by injection Hkey].
    apply (NoDup_fmap_eq row (unique (key <$> fq_rows freq)));
      [done| | |by rewrite !Hrow];
      by apply elem_of_unique, list_elem_of_fmap_2.
Qed.

(** ** The timezone of the agency *)

(** X19. With a stop registry, [build_stop_times] looks the traffic side
    up under the timezone of the agency before it processes any trip: for
    a timezone that the table of sides does not list it raises KeyError,
    whatever the routes, shapes, trips and buffer (the trip identifiers
    having three components at least). *)
Theorem build_stop_times_unknown_timezone (σ : gmap nat Frequencies)
    (pfeed : ProtoFeed) (freq : Frequencies) (registry : list Stop)
    (m : Meta) (rest : list Meta) (route_table : list RouteRow)
    (shape_table : list ShapeRow) (trip_table : list TripRow) (buffer : Q)
    (merged : list TripDetail) :
  deref σ (pf_frequencies pfeed) = Ok freq →
  pf_stops pfeed = Some registry →
  pf_meta pfeed = Some (m :: rest) →
  traffic_by_timezone !! agency_timezone m = None →
  merge_trips route_table freq trip_table = Ok merged →
  build_stop_times σ pfeed route_table shape_table trip_table buffer
  = Raise KeyError.
Proof.
  intros Hfreq Hstops Hmeta Hzone Hmerged.
  unfold build_stop_times, stop_time_seconds, getitem.
  rewrite Hfreq. cbn [mbind Result_bind].
  rewrite Hmerged. cbn [mbind Result_bind].
  rewrite Hstops, Hmeta. cbn [not_None index lookup list_lookup mbind
    Result_bind].
  by rewrite Hzone.
Qed.

(** ** Trips start inside their window *)



End Further.

(** * The further properties on the sample network *)

Lemma build_stops_ids_distinct_witness :
  (pf_stops (Sample.pfeed None) = None ∧
   NoDup (fst <$> geometrize_shapes false Sample.shape_table)) ∧
  ∃ stops,
    build_stops (Sample.pfeed None) (Some Sample.shape_table) = Ok stops ∧
    length stops = 4%nat ∧
    NoDup (stop_id <$> stops).
Proof.
  assert (Hnodup : NoDup (fst <$> geometrize_shapes false Sample.shape_table)).
  { apply (bool_decide_unpack _). by vm_compute. }
  split; [by split|].
  destruct (build_stops_ids_distinct (Sample.pfeed None) Sample.shape_table
              eq_refl Hnodup) as (stops & Hstops & Hlength & Hids).
  exists stops. split; [exact Hstops|]. split; [|exact Hids].
  rewrite Hlength. by vm_compute.
Defined.

Lemma calendar_service_ids_distinct_witness :
  (pf_service_windows (Sample.pfeed None) = Some Sample.windows ∧
   pf_meta (Sample.pfeed None) = Some [Sample.meta] ∧
   Forall (λ w, Forall (λ x, x = 0 ∨ x = 1) (weekdays w)) Sample.windows) ∧
  ∃ calendar service_by_window,
    build_calendar_etc (Sample.pfeed None) = Ok (calendar, service_by_window) ∧
    NoDup (ca_service_id <$> calendar).
Proof.
  assert (Hflags : Forall (λ w, Forall (λ x, x = 0 ∨ x = 1) (weekdays w))
                          Sample.windows).
  { apply (bool_decide_unpack _). by vm_compute. }
  split; [by repeat split|].
  exact (calendar_service_ids_distinct (Sample.pfeed None) Sample.windows
           Sample.meta [] eq_refl eq_refl Hflags).
Defined.

Lemma service_by_window_last_witness :
  let windows1 := [Sample.window "weekday_peak" "06:00:00" "07:00:00" 0] in
  let windows2 := [Sample.window "closed" "00:00:00" "01:00:00" 0] in
  (sw_service_window_id Sample.peak ∉ sw_service_window_id <$> windows2 ∧
   "night" ∉ sw_service_window_id <$> windows1 ++ Sample.peak :: windows2) ∧
  service_by_window_of (windows1 ++ Sample.peak :: windows2)
    !! "weekday_peak" = Some "srv1111100" ∧
  service_by_window_of (windows1 ++ Sample.peak :: windows2) !! "night"
  = None.
Proof.
  intros windows1 windows2.
  assert (Hlast : sw_service_window_id Sample.peak
                  ∉ sw_service_window_id <$> windows2).
  { apply (bool_decide_unpack _). by vm_compute. }
  assert (Hnight : "night" ∉ sw_service_window_id
                             <$> windows1 ++ Sample.peak :: windows2).
  { apply (bool_decide_unpack _). by vm_compute. }
  split; [by split|].
  destruct (service_by_window_last windows1 windows2 Sample.peak "night"
              Hlast) as [Hpeak Hother].
  split; [exact Hpeak|exact (Hother Hnight)].
Defined.

Lemma build_trips_of_ids_distinct_witness :
  ∃ trips,
    build_trips_of Sample.service_by_window
      ((Sample.route, Sample.both_ways), Sample.peak) = Ok trips ∧
    length trips = 20%nat ∧
    NoDup (tr_trip_id <$> trips).
Proof.
  destruct (build_trips_of Sample.service_by_window
              ((Sample.route, Sample.both_ways), Sample.peak))
    as [trips|] eqn:Htrips; [|by vm_compute in Htrips].
  exists trips. split; [done|]. split.
  - vm_compute in Htrips. by injection Htrips as <-.
  - exact (build_trips_of_ids_distinct Sample.service_by_window
             ((Sample.route, Sample.both_ways), Sample.peak) trips Htrips).
Defined.

Lemma zero_frequency_skipped_witness :
  let idle :=
    Sample.frequency_row "51X" "weekday_peak" 2 0 (Some 20%Q) "a" in
  let detail := ((Sample.trip, "weekday_peak"), (Sample.route, idle)) in
  (fq_frequency idle = 0 ∧
   Sample.geometry_by_shape !! tr_shape_id Sample.trip
   = Some (reverse (ft_coords (Sample.path "a" 0)))) ∧
  build_trips_of Sample.service_by_window
    ((Sample.route, idle), Sample.peak) = Ok [] ∧
  endpoint_stop_times true Sample.geometry_by_shape detail = Ok [] ∧
  nearby_stop_times true Sample.geometry_by_shape
    (geometrize_stops Sample.registry) "left" BUFFER detail
    Sample.empty_cache
  = Ok (Sample.empty_cache, []).
Proof.
  intros idle detail. split; [by split|].
  destruct (trip_duration true
              (ls_length (reverse (ft_coords (Sample.path "a" 0))) / 1000)
              idle) as [duration|] eqn:Hduration;
    [|by vm_compute in Hduration].
  destruct (get_nearby_stops (geometrize_stops Sample.registry)
              (reverse (ft_coords (Sample.path "a" 0))) "left" BUFFER)
    as [nearby|] eqn:Hnearby; [|by vm_compute in Hnearby].
  exact (zero_frequency_skipped Sample.service_by_window true
           Sample.geometry_by_shape (geometrize_stops Sample.registry)
           nearby "left" BUFFER Sample.route idle Sample.peak Sample.trip
           "weekday_peak" Sample.empty_cache
           (reverse (ft_coords (Sample.path "a" 0))) duration
           eq_refl eq_refl Hduration Hnearby).
Defined.

Lemma build_trips_after_calendar_witness :
  (deref Sample.σ' (pf_frequencies (Sample.pfeed None)) = Ok Sample.cleaned ∧
   build_calendar_etc (Sample.pfeed None)
   = Ok (Sample.calendar_table, Sample.window_services)) ∧
  ∃ trip_table,
    build_trips Sample.σ' (Sample.pfeed None) Sample.route_table
      Sample.window_services = Ok trip_table ∧
    ∀ t, t ∈ trip_table →
      tr_service_id t ∈ ca_service_id <$> Sample.calendar_table ∧
      tr_route_id t ∈ rt_route_id <$> Sample.route_table.
Proof.
  assert (Hfreq : deref Sample.σ' (pf_frequencies (Sample.pfeed None))
                  = Ok Sample.cleaned) by reflexivity.
  assert (Hcalendar : build_calendar_etc (Sample.pfeed None)
                      = Ok (Sample.calendar_table, Sample.window_services))
    by (by vm_compute).
  split; [by split|].
  exact (build_trips_after_calendar Sample.σ' (Sample.pfeed None)
           Sample.cleaned Sample.route_table Sample.calendar_table
           Sample.window_services Hfreq Hcalendar).
Defined.

Lemma trip_shape_built_witness :
  (Sample.both_ways ∈ fq_rows Sample.cleaned ∧
   0 ≤ fq_direction Sample.both_ways ≤ 2) ∧
  ∃ trips,
    build_trips_of Sample.service_by_window
      ((Sample.route, Sample.both_ways), Sample.peak) = Ok trips ∧
    Sample.trip ∈ trips ∧
    ∃ extra rows g,
      build_shapes_extra Sample.cleaned = Ok extra ∧
      build_shapes_of (Some extra) "a" (ft_coords (Sample.path "a" 0))
      = Ok rows ∧
      (g = ft_coords (Sample.path "a" 0)
       ∨ g = reverse (ft_coords (Sample.path "a" 0))) ∧
      filter (λ x, sh_shape_id x = "a-0") rows = shape_rows "a-0" g.
Proof.
  assert (Hrow : Sample.both_ways ∈ fq_rows Sample.cleaned) by (by left).
  assert (Hdirection : 0 ≤ fq_direction Sample.both_ways ≤ 2)
    by (by vm_compute).
  split; [by split|].
  destruct (build_trips_of Sample.service_by_window
              ((Sample.route, Sample.both_ways), Sample.peak))
    as [trips|] eqn:Htrips; [|by vm_compute in Htrips].
  assert (Htrip : Sample.trip ∈ trips).
  { vm_compute in Htrips. injection Htrips as <-.
    do 3 right. by left. }
  exists trips. split; [done|]. split; [exact Htrip|].
  exact (trip_shape_built Sample.cleaned Sample.service_by_window
           Sample.route Sample.both_ways Sample.peak trips Sample.trip
           (ft_coords (Sample.path "a" 0)) Hrow Hdirection Htrips Htrip).
Defined.

Lemma build_geometry_by_shape_last_witness :
  pf_shapes (Sample.pfeed None) = Some Sample.features ∧
  ∃ geometry_by_shape,
    build_geometry_by_shape (Sample.pfeed None) = Ok geometry_by_shape ∧
    fst <$> geometry_by_shape = ["a"; "unused"; "b"] ∧
    NoDup (fst <$> geometry_by_shape) ∧
    ("b", ft_coords (Sample.path "b" 100000)) ∈ geometry_by_shape.
Proof.
  split; [reflexivity|].
  destruct (build_geometry_by_shape_last (Sample.pfeed None) Sample.features
              eq_refl) as (g & Hbuild & Hkeys & Hnodup & Hlast).
  exists g. split; [exact Hbuild|]. split; [by rewrite Hkeys|].
  split; [exact Hnodup|].
  apply (Hlast [Sample.path "a" 0; Sample.path "unused" 0]
               (Sample.path "b" 100000) []); [reflexivity|].
  apply (bool_decide_unpack _). by vm_compute.
Defined.

Lemma build_shapes_referenced_witness :
  (pf_shapes (Sample.pfeed None) = Some Sample.features ∧
   pf_shapes_extra (Sample.pfeed None) = Some {[ "a" := 2 ]}) ∧
  ∃ rows,
    build_shapes (Sample.pfeed None) = Ok rows ∧
    length rows = 6%nat ∧
    ∀ row, row ∈ rows →
      ∃ f direction,
        f ∈ Sample.features ∧
        ({[ "a" := 2 ]} : gmap string Z) !! ft_shape_id f = Some direction ∧
        sh_shape_id row
        ∈ (if decide (direction = 2)
           then [ft_shape_id f +:+ "-1"; ft_shape_id f +:+ "-0"]
           else [ft_shape_id f +:+ SEP +:+ str direction]).
Proof.
  split; [by split|].
  destruct (build_shapes_referenced (Sample.pfeed None) Sample.features
              {[ "a" := 2 ]} eq_refl eq_refl) as (rows & Hrows & Hall).
  exists rows. split; [exact Hrows|]. split; [|exact Hall].
  vm_compute in Hrows. by injection Hrows as <-.
Defined.

Lemma get_nearby_stops_cases_witness :
  ∃ stops,
    get_nearby_stops (geometrize_stops Sample.registry)
      (ft_coords (Sample.path "a" 0)) "left" BUFFER = Ok stops ∧
    length stops = 2%nat ∧
    stops `sublist_of` geometrize_stops Sample.registry.
Proof.
  destruct (get_nearby_stops (geometrize_stops Sample.registry)
              (ft_coords (Sample.path "a" 0)) "left" BUFFER)
    as [stops|] eqn:Hstops; [|by vm_compute in Hstops].
  exists stops. split; [done|]. split.
  - vm_compute in Hstops. by injection Hstops as <-.
  - by apply (get_nearby_stops_cases (geometrize_stops Sample.registry)
                (ft_coords (Sample.path "a" 0)) "left" BUFFER).
Defined.

Lemma measure_stops_memo_witness :
  Sample.empty_cache !! "a-1" = Some ∅ ∧
  ∃ cache' measured,
    measure_stops (ft_coords (Sample.path "a" 0)) "a-1"
      [Sample.near_stop; Sample.far_stop] Sample.empty_cache
    = Ok (cache', measured) ∧
    snd <$> measured = ["A"; "F"] ∧
    measure_stops [] "a-1" [Sample.near_stop; Sample.far_stop] cache'
    = Ok (cache', measured).
Proof.
  split; [reflexivity|].
  destruct (measure_stops_memo (ft_coords (Sample.path "a" 0)) "a-1"
              [Sample.near_stop; Sample.far_stop] Sample.empty_cache ∅
              eq_refl)
    as (cache' & measured & m' & Hmeasure & _ & _ & _ & Hagain).
  exists cache', measured. split; [exact Hmeasure|]. split; [|apply Hagain].
  vm_compute in Hmeasure. by injection Hmeasure as _ <-.
Defined.

Lemma compute_stops_dists_times_ends_witness :
  ((0 <= ls_length (ft_coords (Sample.path "a" 0)))%Q ∧
   (25200 <= 26280)%Q) ∧
  ∃ cache' stops dists times,
    compute_stops_dists_times (geometrize_stops Sample.registry)
      (ft_coords (Sample.path "a" 0)) "a-1" 25200 26280 Sample.empty_cache
    = Ok (cache', (stops, dists, times)) ∧
    stops ≡ₚ gs_stop_id <$> geometrize_stops Sample.registry ∧
    Forall (λ t, (25200 <= t <= 26280)%Q) times ∧
    last times = Some 26280%Q.
Proof.
  assert (Hlength : (0 <= ls_length (ft_coords (Sample.path "a" 0)))%Q)
    by (by vm_compute).
  assert (Htimes : (25200 <= 26280)%Q) by (by vm_compute).
  split; [by split|].
  destruct (compute_stops_dists_times (geometrize_stops Sample.registry)
              (ft_coords (Sample.path "a" 0)) "a-1" 25200 26280
              Sample.empty_cache)
    as [[cache' [[stops dists] times]]|] eqn:Hcompute;
    [|by vm_compute in Hcompute].
  exists cache', stops, dists, times. split; [done|].
  destruct (compute_stops_dists_times_ends
              (geometrize_stops Sample.registry)
              (ft_coords (Sample.path "a" 0)) "a-1" 25200 26280
              Sample.empty_cache cache' stops dists times Hcompute Hlength
              Htimes) as (Hstops & Hbounds & Hlast & _).
  by repeat split.
Defined.

Lemma build_stop_times_trip_ids_witness :
  build_stop_times Sample.σ' (Sample.pfeed (Some Sample.registry))
    Sample.route_table Sample.shape_table Sample.trip_table BUFFER
  = Ok Sample.stop_time_table ∧
  length Sample.stop_time_table = 40%nat ∧
  ∀ st, st ∈ Sample.stop_time_table →
    st_trip_id st ∈ tr_trip_id <$> Sample.trip_table.
Proof.
  assert (Htimes : build_stop_times Sample.σ'
                     (Sample.pfeed (Some Sample.registry)) Sample.route_table
                     Sample.shape_table Sample.trip_table BUFFER
                   = Ok Sample.stop_time_table) by (by vm_compute).
  split; [exact Htimes|]. split; [reflexivity|].
  exact (build_stop_times_trip_ids Sample.σ'
           (Sample.pfeed (Some Sample.registry)) Sample.route_table
           Sample.shape_table Sample.trip_table BUFFER
           Sample.stop_time_table Htimes).
Defined.

Lemma build_feed_stop_ids_witness :
  ((∀ shapes, fst <$> geometrize_shapes true shapes
              ⊆ fst <$> geometrize_shapes false shapes) ∧
   (∀ stops, gs_stop_id <$> geometrize_stops stops ⊆ stop_id <$> stops)) ∧
  (∃ feed,
     build_feed Sample.σ' (Sample.pfeed (Some Sample.registry)) BUFFER
     = Ok feed ∧
     ∀ st, st ∈ stop_times feed → st_stop_id st ∈ stop_id <$> stops feed) ∧
  (∃ feed,
     build_feed Sample.σ' (Sample.pfeed None) BUFFER = Ok feed ∧
     ∀ st, st ∈ stop_times feed → st_stop_id st ∈ stop_id <$> stops feed).
Proof.
  assert (Hshapes : ∀ shapes, fst <$> geometrize_shapes true shapes
                              ⊆ fst <$> geometrize_shapes false shapes).
  { intros shapes x Hx. exact Hx. }
  assert (Hstops : ∀ stops, gs_stop_id <$> geometrize_stops stops
                            ⊆ stop_id <$> stops).
  { intros stops x Hx. cbn in Hx. unfold Sample.points in Hx.
    by rewrite <-list_fmap_compose in Hx. }
  split; [by split|]. split.
  - destruct (build_feed Sample.σ' (Sample.pfeed (Some Sample.registry))
                BUFFER) as [feed|] eqn:Hfeed; [|by vm_compute in Hfeed].
    exists feed. split; [done|].
    exact (build_feed_stop_ids Sample.σ'
             (Sample.pfeed (Some Sample.registry)) BUFFER feed Hshapes
             Hstops Hfeed).
  - destruct (build_feed Sample.σ' (Sample.pfeed None) BUFFER)
      as [feed|] eqn:Hfeed; [|by vm_compute in Hfeed].
    exists feed. split; [done|].
    exact (build_feed_stop_ids Sample.σ' (Sample.pfeed None) BUFFER feed
             Hshapes Hstops Hfeed).
Defined.

Lemma ProtoFeed_init_shapes_extra_witness :
  Sample.store !! 0%nat = Some Sample.frequencies ∧
  ∃ σ' pfeed extra,
    ProtoFeed_init Sample.store (Some 0%nat) (Some [Sample.meta])
      (Some Sample.windows) (Some Sample.features) None = Ok (σ', pfeed) ∧
    pf_shapes_extra pfeed = Some extra ∧
    build_shapes_extra Sample.frequencies = Ok extra ∧
    extra !! "a" = Some 2 ∧
    extra !! "unused" = None.
Proof.
  split; [reflexivity|].
  destruct (ProtoFeed_init_shapes_extra Sample.store 0 Sample.frequencies
              Sample.meta [] (Some Sample.windows) (Some Sample.features)
              None eq_refl)
    as (σ' & pfeed & extra & Hinit & Hextra & Hbuild & Hlookup).
  exists σ', pfeed, extra. split; [exact Hinit|]. split; [exact Hextra|].
  split; [exact Hbuild|]. by rewrite !Hlookup.
Defined.

Lemma ProtoFeed_init_twice_witness :
  Sample.store !! 0%nat = Some Sample.frequencies ∧
  ∃ σ' pfeed,
    ProtoFeed_init Sample.store (Some 0%nat) (Some [Sample.meta])
      (Some Sample.windows) (Some Sample.features) None = Ok (σ', pfeed) ∧
    ProtoFeed_init σ' (Some 0%nat) (Some [Sample.meta])
      (Some Sample.windows) (Some Sample.features) None = Ok (σ', pfeed) ∧
    σ' !! 0%nat = Some Sample.cleaned.
Proof.
  split; [reflexivity|].
  destruct (ProtoFeed_init_twice Sample.store 0 Sample.frequencies
              Sample.meta [] (Some Sample.windows) (Some Sample.features)
              None eq_refl) as (σ' & pfeed & Hinit & Hagain).
  exists σ', pfeed. split; [exact Hinit|]. split; [exact Hagain|].
  vm_compute in Hinit. by injection Hinit as <- _.
Defined.

Lemma ProtoFeed_init_missing_tables_witness :
  Sample.store !! 0%nat = Some Sample.frequencies ∧
  (∃ pfeed,
     ProtoFeed_init Sample.store None (Some [Sample.meta])
       (Some Sample.windows) (Some Sample.features) None
     = Ok (Sample.store, pfeed) ∧
     pf_shapes_extra pfeed = None ∧
     build_shapes pfeed = Raise TypeError) ∧
  ProtoFeed_init Sample.store (Some 0%nat) None (Some Sample.windows)
    (Some Sample.features) None = Raise TypeError ∧
  ProtoFeed_init Sample.store (Some 0%nat) (Some []) (Some Sample.windows)
    (Some Sample.features) None = Raise IndexError.
Proof.
  split; [reflexivity|].
  destruct (ProtoFeed_init_missing_tables Sample.store 0 Sample.frequencies
              (Some [Sample.meta]) (Some Sample.windows) Sample.features
              None eq_refl) as (Hnone & Hmeta & Hempty).
  split; [exact Hnone|]. split; [exact Hmeta|exact Hempty].
Defined.

Lemma build_routes_rows_witness :
  deref Sample.σ' (pf_frequencies (Sample.pfeed None)) = Ok Sample.cleaned ∧
  ∃ route_table,
    build_routes Sample.σ' (Sample.pfeed None) = Ok route_table ∧
    Sample.route ∈ route_table ∧
    NoDup (rt_route_id <$> route_table).
Proof.
  split; [reflexivity|].
  destruct (build_routes_rows Sample.σ' (Sample.pfeed None) Sample.cleaned
              eq_refl) as (route_table & Hroutes & Hrows & Hids & _).
  exists route_table. split; [exact Hroutes|]. split.
  - apply Hrows. exists Sample.both_ways. split; [by left|reflexivity].
  - apply Hids.
    intros fq fq' ->%list_elem_of_singleton ->%list_elem_of_singleton _.
    by repeat split.
Defined.

Lemma build_stop_times_unknown_timezone_witness :
  let elsewhere :=
    {| agency_name := "Sample Transit";
       agency_url := "http://example.org";
       agency_timezone := "Atlantis/Nowhere";
       start_date := "20260101";
       end_date := "20261231";
       default_route_speed := Some 20%Q |} in
  let pfeed :=
    {| pf_frequencies := Some 0%nat;
       pf_meta := Some [elsewhere];
       pf_service_windows := Some Sample.windows;
       pf_shapes := Some Sample.features;
       pf_stops := Some Sample.registry;
       pf_shapes_extra := Some {[ "a" := 2 ]} |} in
  (deref Sample.σ' (pf_frequencies pfeed) = Ok Sample.cleaned ∧
   traffic_by_timezone !! agency_timezone elsewhere = None ∧
   ∃ merged,
     merge_trips Sample.route_table Sample.cleaned Sample.trip_table
     = Ok merged) ∧
  build_stop_times Sample.σ' pfeed Sample.route_table Sample.shape_table
    Sample.trip_table BUFFER
  = Raise KeyError.
Proof.
  intros elsewhere pfeed.
  destruct (merge_trips Sample.route_table Sample.cleaned Sample.trip_table)
    as [merged|] eqn:Hmerged; [|by vm_compute in Hmerged].
  split; [split; [reflexivity|split; [reflexivity|by exists merged]]|].
  exact (build_stop_times_unknown_timezone Sample.σ' pfeed Sample.cleaned
           Sample.registry elsewhere [] Sample.route_table
           Sample.shape_table Sample.trip_table BUFFER merged eq_refl
           eq_refl eq_refl eq_refl Hmerged).
Defined.

